(** * git_push.py: the stage / commit / push sequencer

    A shallow embedding of [src/git_push.py] and the properties of its
    control flow.

    The script talks to three things outside itself: the [git] executable
    (through [subprocess.run]), the operator's keyboard ([input]) and the
    console ([print]).  They are modelled by

    - an oracle [subprocess_run] that, given the commands issued so far and
      the next argument vector, says what [subprocess.run] does;
    - a [World] holding the lines still to be read from standard input, the
      text written to standard output and the argument vectors handed to
      [subprocess.run], in the order they were issued;
    - a small state-and-exception monad [M] in which every function of the
      script is written, with [sys.exit] and uncaught exceptions as the two
      abrupt results. *)

From Stdlib Require Import List String Ascii NArith ZArith Bool Lia.
Import ListNotations.

Local Open Scope list_scope.

(** ** Python strings

    A Python [str] is a sequence of Unicode code points.  Literals of the
    script are written here as the UTF-8 text of the source and decoded. *)

Definition pystr : Type := list N.

Fixpoint utf8_decode (bs : list N) : pystr :=
  match bs with
  | [] => []
  | b0 :: r0 =>
      if (b0 <? 128)%N then b0 :: utf8_decode r0
      else if (b0 <? 224)%N then
        match r0 with
        | b1 :: r1 => ((b0 - 192) * 64 + (b1 - 128))%N :: utf8_decode r1
        | _ => []
        end
      else if (b0 <? 240)%N then
        match r0 with
        | b1 :: b2 :: r2 =>
            ((b0 - 224) * 4096 + (b1 - 128) * 64 + (b2 - 128))%N
              :: utf8_decode r2
        | _ => []
        end
      else
        match r0 with
        | b1 :: b2 :: b3 :: r3 =>
            ((b0 - 240) * 262144 + (b1 - 128) * 4096
             + (b2 - 128) * 64 + (b3 - 128))%N :: utf8_decode r3
        | _ => []
        end
  end.

Definition u (s : string) : pystr :=
  utf8_decode (map N_of_ascii (list_ascii_of_string s)).

Definition pystr_eqb (a b : pystr) : bool :=
  if list_eq_dec N.eq_dec a b then true else false.

(** [x in [a, b, ...]] on strings. *)
Definition py_in (x : pystr) (l : list pystr) : bool :=
  existsb (pystr_eqb x) l.

(** Truth value of a [str]: only the empty string is false. *)
Definition truthy (s : pystr) : bool :=
  match s with [] => false | _ :: _ => true end.

(** Truth value of an [Optional[str]]. *)
Definition truthy_opt (o : option pystr) : bool :=
  match o with None => false | Some s => truthy s end.

(** An [Optional[str]] used as a [str], past the test that it is not
    [None]. *)
Definition the_str (o : option pystr) : pystr :=
  match o with Some s => s | None => [] end.

(** The code points [str.strip()] removes: CPython's
    [_PyUnicode_IsWhitespace]. *)
Definition py_isspace (c : N) : bool :=
  ((9 <=? c) && (c <=? 13) || (28 <=? c) && (c <=? 32)
   || (c =? 133) || (c =? 160) || (c =? 5760)
   || (8192 <=? c) && (c <=? 8202)
   || (c =? 8232) || (c =? 8233) || (c =? 8239) || (c =? 8287)
   || (c =? 12288))%N.

Fixpoint lstrip (s : pystr) : pystr :=
  match s with
  | [] => []
  | c :: r => if py_isspace c then lstrip r else s
  end.

Definition rstrip (s : pystr) : pystr := rev (lstrip (rev s)).

Definition strip (s : pystr) : pystr := rstrip (lstrip s).

Definition is_ascii (c : N) : bool := (c <? 128)%N.

Definition ascii_lower (c : N) : N :=
  if ((65 <=? c) && (c <=? 90))%N then (c + 32)%N else c.

(** ["=" * 50] *)
Definition rule : pystr := repeat 61%N 50.

Definition nl : pystr := [10%N].

(** ** Results of a computation *)

(** Python exceptions, as far as the script can tell them apart: the only
    handler of the script is [except Exception], so what matters is whether
    an exception is an instance of [Exception] ([OSError],
    [FileNotFoundError], [UnicodeDecodeError], [EOFError], ...) or only of
    [BaseException] ([KeyboardInterrupt], ...).  [exn_text] is [str(e)]. *)
Inductive PyExn : Type :=
| PyException (exn_text : pystr)
| PyBaseException (exn_text : pystr).

Definition EOFError : PyExn := PyException (u "EOF when reading a line").

Inductive Result (A : Type) : Type :=
| Ret (a : A)
| Raise (e : PyExn)
| SysExit (code : Z).

Arguments Ret {A} a.
Arguments Raise {A} e.
Arguments SysExit {A} code.

(** What [subprocess.run(command, capture_output=True, text=True,
    encoding='utf-8')] does: it returns a completed process or raises. *)
Inductive SubprocessOutcome : Type :=
| Completed (returncode : Z) (stdout stderr : pystr)
| Raises (e : PyExn).

Record World : Type := mkWorld {
  stdin : list pystr;          (* lines [input()] will return, then EOF *)
  stdout : pystr;              (* everything written so far *)
  calls : list (list pystr)    (* argument vectors run so far, oldest first *)
}.

Definition M (A : Type) : Type := World -> Result A * World.

Definition ret {A} (a : A) : M A := fun w => (Ret a, w).

Definition bind {A B} (m : M A) (k : A -> M B) : M B :=
  fun w =>
    match m w with
    | (Ret a, w') => k a w'
    | (Raise e, w') => (Raise e, w')
    | (SysExit c, w') => (SysExit c, w')
    end.

Notation "x <- m ;; k" := (bind m (fun x => k))
  (at level 61, m at next level, right associativity).
Notation "' p <- m ;; k" := (bind m (fun x => match x with p => k end))
  (at level 61, p pattern, m at next level, right associativity).
Notation "m ;; k" := (bind m (fun _ => k))
  (at level 61, right associativity).

(** [if c: body] followed by the rest of the function. *)
Definition when (c : bool) (body : M unit) : M unit :=
  if c then body else ret tt.

Definition write (s : pystr) : M unit :=
  fun w => (Ret tt, mkWorld (stdin w) (stdout w ++ s) (calls w)).

Definition print (s : pystr) : M unit := write (s ++ nl).

(** [input(prompt)]: the prompt is written, one line is consumed; at end of
    input [EOFError] is raised. *)
Definition input (prompt : pystr) : M pystr :=
  fun w =>
    let out := stdout w ++ prompt in
    match stdin w with
    | [] => (Raise EOFError, mkWorld [] out (calls w))
    | l :: rest => (Ret l, mkWorld rest out (calls w))
    end.

Definition sys_exit {A} (code : Z) : M A := fun w => (SysExit code, w).

(** How the process ends: with an exit code, or with the traceback of an
    exception nobody caught. *)
Inductive Termination : Type :=
| Exited (code : Z)
| Traceback (e : PyExn).

(** Returning from [main] ends the process with code 0, [sys.exit(c)] with
    code [c]. *)
Definition termination_of (r : Result unit) : Termination :=
  match r with
  | Ret _ => Exited 0
  | SysExit c => Exited c
  | Raise e => Traceback e
  end.

(** [steps_to m w r ins cs]: run from [w], [m] ends with [r], leaving [ins] on
    standard input and [cs] as the commands issued. *)
Definition steps_to {A} (m : M A) (w : World) (r : Result A)
  (ins : list pystr) (cs : list (list pystr)) : Prop :=
  exists w', m w = (r, w') /\ stdin w' = ins /\ calls w' = cs.

(** ** The script *)

(** [always m c0 Q]: started after the commands [c0], [m] ends with a result
    and a list of issued commands that satisfy [Q], whatever is waiting on
    standard input and whatever has been written. *)
Definition always {A} (m : M A) (c0 : list (list pystr))
  (Q : Result A -> list (list pystr) -> Prop) : Prop :=
  forall w, calls w = c0 -> Q (fst (m w)) (calls (snd (m w))).

Module GitPush.

Section Script.

(** The environment. [subprocess_run history command] is the behaviour of the
    external command [command] when [history] has been run before it. *)
Variable subprocess_run : list (list pystr) -> list pystr -> SubprocessOutcome.

(** [str.lower()] on a string with a code point outside ASCII: the Unicode
    case tables of the interpreter, which are not part of the script. *)
Variable unicode_lower : pystr -> pystr.

(** [str.lower()] *)
Definition lower (s : pystr) : pystr :=
  if forallb is_ascii s then map ascii_lower s else unicode_lower s.

(** The call [subprocess.run(command, ...)] itself: the command is recorded
    as issued, whatever comes of it. *)
Definition subprocess_run_call (command : list pystr) : M (Z * pystr * pystr) :=
  fun w =>
    let w' := mkWorld (stdin w) (stdout w) (calls w ++ [command]) in
    match subprocess_run (calls w) command with
    | Completed rc out err => (Ret (rc, out, err), w')
    | Raises e => (Raise e, w')
    end.

(** [try: ... except Exception as e: ...] *)
Definition try_except_Exception {A} (body : M A) (handler : pystr -> M A) : M A :=
  fun w =>
    match body w with
    | (Raise (PyException t), w') => handler t w'
    | r => r
    end.

(** [run_command(command)], with [capture_output] at its default [True], the
    value it has at every call site. *)
Definition run_command (command : list pystr) : M (Z * pystr * pystr) :=
  try_except_Exception
    (subprocess_run_call command)
    (fun e =>
       print (u "執行命令時發生錯誤: " ++ e) ;;
       ret (1%Z, [], e)).

Definition git_rev_parse : list pystr := [u "git"; u "rev-parse"; u "--git-dir"].
Definition git_status : list pystr := [u "git"; u "status"; u "--porcelain"].
Definition git_add : list pystr := [u "git"; u "add"; u "."].
Definition git_commit (message : pystr) : list pystr :=
  [u "git"; u "commit"; u "-m"; message].
Definition git_branch : list pystr := [u "git"; u "branch"; u "--show-current"].
Definition git_push (branch : pystr) : list pystr :=
  [u "git"; u "push"; u "origin"; branch].

Definition check_git_repository : M bool :=
  '(return_code, _, _) <- run_command git_rev_parse ;;
  ret (return_code =? 0)%Z.

Definition get_git_status : M pystr :=
  '(return_code, stdout, stderr) <- run_command git_status ;;
  if negb (return_code =? 0)%Z then
    print (u "獲取 Git 狀態失敗: " ++ stderr) ;;
    ret []
  else ret stdout.

Definition add_all_files : M bool :=
  print (u "正在添加所有變更的檔案...") ;;
  '(return_code, stdout, stderr) <- run_command git_add ;;
  if negb (return_code =? 0)%Z then
    print (u "添加檔案失敗: " ++ stderr) ;;
    ret false
  else
    print (u "檔案添加成功！") ;;
    ret true.

Definition get_commit_message : M (option pystr) :=
  print (nl ++ rule) ;;
  print (u "請輸入 commit message:") ;;
  print rule ;;
  line <- input [] ;;
  let message := strip line in
  if negb (truthy message) then
    print (u "錯誤: commit message 不能為空！") ;;
    ret None
  else ret (Some message).

Definition affirmative : list pystr := [u "y"; u "yes"; u "是"; u "確認"].
Definition negative : list pystr := [u "n"; u "no"; u "否"; u "取消"].

Definition confirm_prompt : pystr := u "是否確認提交？(y/n): ".

(** One turn of the [while True:] loop of [confirm_commit], after its line
    has been read: [return True], [return False], or go round again. *)
Inductive Verdict : Type := Accept | Reject | Reprompt.

Definition confirm_turn (line : pystr) : Verdict :=
  let confirm := lower (strip line) in
  if py_in confirm affirmative then Accept
  else if py_in confirm negative then Reject
  else Reprompt.

(** The loop itself.  Each turn reads one line, so it is written by recursion
    on the lines that remain; with none left, [input] raises [EOFError]. *)
Fixpoint confirm_loop (lines : list pystr) (out : pystr)
  : Result bool * (list pystr * pystr) :=
  match lines with
  | [] => (Raise EOFError, ([], out ++ confirm_prompt))
  | line :: rest =>
      let out1 := out ++ confirm_prompt in
      match confirm_turn line with
      | Accept => (Ret true, (rest, out1))
      | Reject => (Ret false, (rest, out1))
      | Reprompt => confirm_loop rest (out1 ++ (u "請輸入 y 或 n" ++ nl))
      end
  end.

Definition confirm_commit (message : pystr) : M bool :=
  print (nl ++ rule) ;;
  print (u "確認提交資訊:") ;;
  print (u "Commit Message: " ++ message) ;;
  print rule ;;
  fun w =>
    let '(r, (lines, out)) := confirm_loop (stdin w) (stdout w) in
    (r, mkWorld lines out (calls w)).

Definition commit_changes (message : pystr) : M bool :=
  print (u "正在提交變更...") ;;
  '(return_code, stdout, stderr) <- run_command (git_commit message) ;;
  if negb (return_code =? 0)%Z then
    print (u "提交失敗: " ++ stderr) ;;
    ret false
  else
    print (u "提交成功！") ;;
    ret true.

Definition push_to_remote : M bool :=
  print (u "正在推送到遠端倉庫...") ;;
  '(return_code, branch, stderr) <- run_command git_branch ;;
  if negb (return_code =? 0)%Z then
    print (u "獲取分支名稱失敗: " ++ stderr) ;;
    ret false
  else
    let branch := strip branch in
    '(return_code, stdout, stderr) <- run_command (git_push branch) ;;
    if negb (return_code =? 0)%Z then
      print (u "推送失敗: " ++ stderr) ;;
      ret false
    else
      print (u "成功推送到遠端分支: " ++ branch) ;;
      ret true.

Definition main : M unit :=
  print (u "Git 自動添加推送到遠端倉庫工具") ;;
  print rule ;;
  is_repo <- check_git_repository ;;
  when (negb is_repo)
    (print (u "錯誤: 當前目錄不是 Git 倉庫！") ;;
     print (u "請在 Git 倉庫目錄中執行此腳本。") ;;
     sys_exit 1) ;;
  status <- get_git_status ;;
  when (negb (truthy status))
    (print (u "沒有需要提交的變更。") ;;
     sys_exit 0) ;;
  print (u "檢測到以下變更:") ;;
  print status ;;
  added <- add_all_files ;;
  when (negb added) (sys_exit 1) ;;
  message <- get_commit_message ;;
  when (negb (truthy_opt message)) (sys_exit 1) ;;
  let message := the_str message in
  confirmed <- confirm_commit message ;;
  when (negb confirmed)
    (print (u "已取消提交。") ;;
     sys_exit 0) ;;
  committed <- commit_changes message ;;
  when (negb committed) (sys_exit 1) ;;
  pushed <- push_to_remote ;;
  when (negb pushed) (sys_exit 1) ;;
  print (nl ++ rule) ;;
  print (u "所有操作完成！") ;;
  print rule.

(** [if __name__ == "__main__": main()], started with [lines] waiting on
    standard input, nothing written and no command run. *)
Definition script (lines : list pystr) : Termination * World :=
  let '(r, w) := main (mkWorld lines [] []) in (termination_of r, w).

(** What [run_command command] hands back to its caller when [history] has
    been run before it, if it hands back anything. *)
Definition returned (history : list (list pystr)) (command : list pystr)
  : option (Z * pystr * pystr) :=
  match subprocess_run history command with
  | Completed rc out err => Some (rc, out, err)
  | Raises (PyException t) => Some (1%Z, [], t)
  | Raises (PyBaseException _) => None
  end.

End Script.

End GitPush.

Import GitPush.

(** ** Observing a run *)

(** The commands that change the repository or the remote. *)
Inductive Mutation : Type := Stage | Commit | Push.

Definition mutation_of (command : list pystr) : option Mutation :=
  match command with
  | git :: verb :: _ =>
      if pystr_eqb git (u "git") then
        if pystr_eqb verb (u "add") then Some Stage
        else if pystr_eqb verb (u "commit") then Some Commit
        else if pystr_eqb verb (u "push") then Some Push
        else None
      else None
  | _ => None
  end.

(** The mutating commands of a history, in the order they were issued. *)
Fixpoint mutations (history : list (list pystr)) : list Mutation :=
  match history with
  | [] => []
  | command :: later =>
      match mutation_of command with
      | Some m => m :: mutations later
      | None => mutations later
      end
  end.

(** ** Scripted environments

    A fake command runner: the outcome of each command is looked up in a
    table by its argument vector; a command not in the table succeeds with
    no output. *)
Definition argv_eqb (a b : list pystr) : bool :=
  if list_eq_dec (list_eq_dec N.eq_dec) a b then true else false.

Fixpoint scripted (table : list (list pystr * SubprocessOutcome))
  (history : list (list pystr)) (command : list pystr) : SubprocessOutcome :=
  match table with
  | [] => Completed 0 [] []
  | (argv, outcome) :: more =>
      if argv_eqb argv command then outcome else scripted more history command
  end.

(** Lower-casing for text without cased letters outside ASCII (the Chinese
    tokens and messages of the script). *)
Definition caseless_lower (s : pystr) : pystr := s.


(** The runs the properties below are tried on. *)

(** One modified file, branch [main], every command succeeds. *)
Definition happy_path : list (list pystr) -> list pystr -> SubprocessOutcome :=
  scripted [(git_status, Completed 0 (u "M file.txt") []);
            (git_branch, Completed 0 (u "main" ++ nl) [])].

(** As [happy_path], but [git commit] is refused (say, by a commit hook). *)
Definition commit_refused : list (list pystr) -> list pystr -> SubprocessOutcome :=
  scripted [(git_status, Completed 0 (u "M file.txt") []);
            (git_commit (u "fix bug"),
             Completed 1 [] (u "pre-commit hook failed"))].

(** Outside any repository. *)
Definition not_a_repository : list (list pystr) -> list pystr -> SubprocessOutcome :=
  scripted [(git_rev_parse,
             Completed 128 [] (u "fatal: not a git repository"))].

(** A repository with nothing to commit. *)
Definition clean_tree : list (list pystr) -> list pystr -> SubprocessOutcome :=
  scripted [].

(** Inside the [.git] directory of a repository: [git rev-parse --git-dir]
    succeeds there and [git status] does not. *)
Definition no_work_tree : list (list pystr) -> list pystr -> SubprocessOutcome :=
  scripted [(git_status,
             Completed 128 []
               (u "fatal: this operation must be run in a work tree"))].

(** As [happy_path], but the current branch cannot be told. *)
Definition branch_unknown : list (list pystr) -> list pystr -> SubprocessOutcome :=
  scripted [(git_status, Completed 0 (u "M file.txt") []);
            (git_branch, Completed 128 [] (u "fatal: bad revision"))].

(** As [happy_path], but the remote refuses the push. *)
Definition push_refused : list (list pystr) -> list pystr -> SubprocessOutcome :=
  scripted [(git_status, Completed 0 (u "M file.txt") []);
            (git_branch, Completed 0 (u "main" ++ nl) []);
            (git_push (u "main"), Completed 1 [] (u "rejected"))].

(** No [git] executable on the path: [subprocess.run] raises
    [FileNotFoundError]. *)
Definition git_missing : list (list pystr) -> list pystr -> SubprocessOutcome :=
  fun _ _ => Raises (PyException (u "[Errno 2] No such file or directory: 'git'")).

(** The operator presses Ctrl-C while a command runs: [subprocess.run] raises
    [KeyboardInterrupt]. *)
Definition interrupted : list (list pystr) -> list pystr -> SubprocessOutcome :=
  fun _ _ => Raises (PyBaseException []).

(** ** Two statements that are put to the test below *)

(** The round trip, with nothing said about how [git commit], [git branch]
    and [git push] fare: the repository check passes, the status is
    [M file.txt], staging succeeds, the operator types [fix bug] and then,
    perhaps after answers that are not understood, an affirmative one. *)
Definition round_trip_unconditional : Prop :=
  forall subprocess_run unicode_lower line junk answer rest
         out1 err1 err2 out3 err3,
    returned subprocess_run [] git_rev_parse = Some (0%Z, out1, err1) ->
    returned subprocess_run [git_rev_parse] git_status
      = Some (0%Z, u "M file.txt", err2) ->
    returned subprocess_run [git_rev_parse; git_status] git_add
      = Some (0%Z, out3, err3) ->
    strip line = u "fix bug" ->
    Forall (fun l => confirm_turn unicode_lower l = Reprompt) junk ->
    confirm_turn unicode_lower answer = Accept ->
    let run := script subprocess_run unicode_lower
                 (line :: junk ++ answer :: rest) in
    fst run = Exited 0 /\ mutations (calls (snd run)) = [Stage; Commit; Push].

(** [str(e)] *)
Definition str_of_exn (e : PyExn) : pystr :=
  match e with PyException t => t | PyBaseException t => t end.

(** [run_command] as a wrapper nothing escapes from: it always returns, and
    when [subprocess.run] raises it returns [(1, "", str(e))]. *)
Definition run_command_never_raises : Prop :=
  forall subprocess_run command w,
    (exists rc out err,
        fst (run_command subprocess_run command w) = Ret (rc, out, err)) /\
    (forall e, subprocess_run (calls w) command = Raises e ->
        fst (run_command subprocess_run command w) = Ret (1%Z, [], str_of_exn e)).

(** As [happy_path], but [git add] fails (say, on a locked index). *)
Definition stage_refused : list (list pystr) -> list pystr -> SubprocessOutcome :=
  scripted [(git_status, Completed 0 (u "M file.txt") []);
            (git_add, Completed 128 [] (u "fatal: Unable to create index.lock"))].

(** [always_io m i0 c0 Q]: started with the lines [i0] waiting on standard
    input and after the commands [c0], [m] ends with a result, lines left and
    commands issued that satisfy [Q], whatever has been written. *)
Definition always_io {A} (m : M A) (i0 : list pystr) (c0 : list (list pystr))
  (Q : Result A -> list pystr -> list (list pystr) -> Prop) : Prop :=
  forall w, stdin w = i0 -> calls w = c0 ->
            Q (fst (m w)) (stdin (snd (m w))) (calls (snd (m w))).

(** As [happy_path], but on a detached HEAD: the branch query prints an empty
    line. *)
Definition detached_head : list (list pystr) -> list pystr -> SubprocessOutcome :=
  scripted [(git_status, Completed 0 (u "M file.txt") []);
            (git_branch, Completed 0 nl [])].

(** * Properties *)

Section Steps.

Variable subprocess_run : list (list pystr) -> list pystr -> SubprocessOutcome.
Variable unicode_lower : pystr -> pystr.

Local Abbreviation run_command := (GitPush.run_command subprocess_run).
Local Abbreviation returned := (GitPush.returned subprocess_run).
Local Abbreviation confirm_turn := (GitPush.confirm_turn unicode_lower).
Local Abbreviation confirm_loop := (GitPush.confirm_loop unicode_lower).
Local Abbreviation confirm_commit := (GitPush.confirm_commit unicode_lower).
Local Abbreviation push_to_remote := (GitPush.push_to_remote subprocess_run).
Local Abbreviation main := (GitPush.main subprocess_run unicode_lower).
Local Abbreviation script := (GitPush.script subprocess_run unicode_lower).

(** ** Strings *)

Lemma pystr_eqb_eq (a b : pystr) : pystr_eqb a b = true <-> a = b.
Proof.
  unfold pystr_eqb. destruct (list_eq_dec N.eq_dec a b); split; congruence.
Qed.

Lemma py_in_In (x : pystr) (l : list pystr) : py_in x l = true <-> In x l.
Proof.
  unfold py_in. rewrite existsb_exists. split.
  - intros (y & Hy & E). apply pystr_eqb_eq in E. now subst.
  - intros H. exists x. split; [exact H | now apply pystr_eqb_eq].
Qed.

Lemma py_in_not_In (x : pystr) (l : list pystr) : py_in x l = false <-> ~ In x l.
Proof.
  rewrite <- py_in_In. destruct (py_in x l); split; congruence.
Qed.

Lemma lstrip_all_space (s : pystr) : forallb py_isspace s = true -> lstrip s = [].
Proof.
  induction s as [|c r IH]; simpl; [reflexivity|].
  intros H. apply andb_true_iff in H as [Hc Hr]. rewrite Hc. now apply IH.
Qed.

Lemma strip_all_space (s : pystr) : forallb py_isspace s = true -> strip s = [].
Proof.
  intros H. unfold strip. now rewrite (lstrip_all_space s H).
Qed.

Lemma lstrip_Forall (P : N -> Prop) (s : pystr) : Forall P s -> Forall P (lstrip s).
Proof.
  induction 1 as [|c r Hc Hr IH]; simpl; [constructor|].
  destruct (py_isspace c); [exact IH | now constructor].
Qed.

Lemma strip_Forall (P : N -> Prop) (s : pystr) : Forall P s -> Forall P (strip s).
Proof.
  intros H. unfold strip, rstrip.
  apply Forall_rev, lstrip_Forall, Forall_rev, lstrip_Forall, H.
Qed.

Lemma strip_ascii (s : pystr) :
  forallb is_ascii s = true -> forallb is_ascii (strip s) = true.
Proof.
  rewrite !forallb_forall, <- !Forall_forall. apply strip_Forall.
Qed.

(** ** Running the monad *)

Lemma steps_ret {A} (a : A) (w : World) i c :
  stdin w = i -> calls w = c -> steps_to (ret a) w (Ret a) i c.
Proof. intros. now exists w. Qed.

Lemma steps_print (s : pystr) (w : World) i c :
  stdin w = i -> calls w = c -> steps_to (print s) w (Ret tt) i c.
Proof. intros. eexists. split; [reflexivity | now split]. Qed.

Lemma steps_sys_exit {A} (code : Z) (w : World) i c :
  stdin w = i -> calls w = c -> steps_to (@sys_exit A code) w (SysExit code) i c.
Proof. intros. now exists w. Qed.

Lemma steps_bind {A B} (m : M A) (k : A -> M B) w a i c r i' c' :
  steps_to m w (Ret a) i c ->
  (forall w', stdin w' = i -> calls w' = c -> steps_to (k a) w' r i' c') ->
  steps_to (bind m k) w r i' c'.
Proof.
  intros (w1 & E & Hi & Hc) K.
  destruct (K w1 Hi Hc) as (w2 & E2 & Hi2 & Hc2).
  exists w2. unfold bind. rewrite E. auto.
Qed.

Lemma steps_bind_exit {A B} (m : M A) (k : A -> M B) w code i c :
  steps_to m w (SysExit code) i c -> steps_to (bind m k) w (SysExit code) i c.
Proof.
  intros (w1 & E & Hi & Hc). exists w1. unfold bind. rewrite E. auto.
Qed.

Lemma steps_bind_raise {A B} (m : M A) (k : A -> M B) w e i c :
  steps_to m w (Raise e) i c -> steps_to (bind m k) w (Raise e) i c.
Proof.
  intros (w1 & E & Hi & Hc). exists w1. unfold bind. rewrite E. auto.
Qed.

Lemma steps_to_fun {A} (m : M A) w r i c r' i' c' :
  steps_to m w r i c -> steps_to m w r' i' c' -> r = r' /\ i = i' /\ c = c'.
Proof.
  intros (w1 & E1 & ? & ?) (w2 & E2 & ? & ?).
  rewrite E1 in E2. injection E2 as -> ->. subst. auto.
Qed.

Lemma steps_to_total {A} (m : M A) w :
  steps_to m w (fst (m w)) (stdin (snd (m w))) (calls (snd (m w))).
Proof. exists (snd (m w)). now destruct (m w). Qed.

(** Run the first action of a sequence with the lemma [L] that describes
    it, and go on with the rest in the world it leaves. *)
Ltac next L :=
  eapply steps_bind;
  [ eapply L; try eassumption
  | let w := fresh "w" in
    let Hi := fresh "Hi" in
    let Hc := fresh "Hc" in
    intros w Hi Hc; cbn [app] in Hc; cbn beta iota ].

Ltac say := next steps_print.
Ltac leave := apply steps_sys_exit; assumption.
Ltac done := apply steps_ret; assumption.

(** [when true body ;; k] where [body] ends in [sys.exit], and
    [when false body ;; k]. *)
Ltac bail := cbn [when negb]; apply steps_bind_exit.
Ltac pass := cbn [when negb]; next @steps_ret.

(** ** The command runner *)

Lemma run_command_eq (command : list pystr) (w : World) :
  run_command command w =
  let w' := mkWorld (stdin w) (stdout w) (calls w ++ [command]) in
  match subprocess_run (calls w) command with
  | Completed rc out err => (Ret (rc, out, err), w')
  | Raises (PyException t) =>
      (Ret (1%Z, [], t),
       mkWorld (stdin w)
         (stdout w ++ (u "執行命令時發生錯誤: " ++ t) ++ nl)
         (calls w ++ [command]))
  | Raises (PyBaseException t) => (Raise (PyBaseException t), w')
  end.
Proof.
  unfold GitPush.run_command, try_except_Exception, subprocess_run_call.
  destruct (subprocess_run (calls w) command) as [rc out err|[t|t]]; reflexivity.
Qed.

Lemma steps_run_command command w i c t :
  stdin w = i -> calls w = c -> returned c command = Some t ->
  steps_to (run_command command) w (Ret t) i (c ++ [command]).
Proof.
  intros Hi Hc R. unfold GitPush.returned in R. rewrite <- Hc in *.
  unfold steps_to. rewrite run_command_eq.
  destruct (subprocess_run (calls w) command) as [rc out err|[x|x]];
    try discriminate; injection R as <-; eexists;
    (split; [reflexivity | split; [exact Hi | reflexivity]]).
Qed.

Lemma steps_run_command_uncaught command w i c t :
  stdin w = i -> calls w = c ->
  subprocess_run c command = Raises (PyBaseException t) ->
  steps_to (run_command command) w (Raise (PyBaseException t)) i (c ++ [command]).
Proof.
  intros Hi Hc R. rewrite <- Hc in *.
  unfold steps_to. rewrite run_command_eq, R.
  eexists; split; [reflexivity | split; [exact Hi | reflexivity]].
Qed.

(** [run_command] returns exactly when [returned] says so. *)
Lemma run_command_returned command w t :
  fst (run_command command w) = Ret t <-> returned (calls w) command = Some t.
Proof.
  rewrite run_command_eq. unfold GitPush.returned. cbv zeta.
  destruct (subprocess_run (calls w) command) as [rc out err|[x|x]];
    cbn [fst]; split; intros E; try discriminate E;
    injection E as <-; reflexivity.
Qed.

(** ** The steps of the pipeline *)

Lemma steps_check_git_repository w i c rc out err :
  stdin w = i -> calls w = c ->
  returned c git_rev_parse = Some (rc, out, err) ->
  steps_to (check_git_repository subprocess_run) w (Ret (rc =? 0)%Z) i
    (c ++ [git_rev_parse]).
Proof.
  intros Hi Hc R. unfold check_git_repository.
  next steps_run_command. done.
Qed.

Lemma steps_get_git_status w i c rc out err :
  stdin w = i -> calls w = c ->
  returned c git_status = Some (rc, out, err) ->
  steps_to (get_git_status subprocess_run) w
    (Ret (if (rc =? 0)%Z then out else [])) i (c ++ [git_status]).
Proof.
  intros Hi Hc R. unfold get_git_status.
  next steps_run_command.
  destruct (rc =? 0)%Z; cbn [negb]; [done | say; done].
Qed.

Lemma steps_add_all_files w i c rc out err :
  stdin w = i -> calls w = c ->
  returned c git_add = Some (rc, out, err) ->
  steps_to (add_all_files subprocess_run) w (Ret (rc =? 0)%Z) i (c ++ [git_add]).
Proof.
  intros Hi Hc R. unfold add_all_files.
  say. next steps_run_command.
  destruct (rc =? 0)%Z; cbn [negb]; say; done.
Qed.

Lemma steps_input prompt w line rest c :
  stdin w = line :: rest -> calls w = c ->
  steps_to (input prompt) w (Ret line) rest c.
Proof.
  intros Hi Hc. unfold steps_to, input. rewrite Hi.
  eexists; split; [reflexivity | split; [reflexivity | exact Hc]].
Qed.

Lemma steps_get_commit_message w line rest c :
  stdin w = line :: rest -> calls w = c ->
  steps_to get_commit_message w
    (Ret (if truthy (strip line) then Some (strip line) else None)) rest c.
Proof.
  intros Hi Hc. unfold get_commit_message.
  say. say. say. next steps_input.
  destruct (truthy (strip line)); cbn [negb]; [done | say; done].
Qed.

Lemma steps_commit_changes message w i c rc out err :
  stdin w = i -> calls w = c ->
  returned c (git_commit message) = Some (rc, out, err) ->
  steps_to (commit_changes subprocess_run message) w (Ret (rc =? 0)%Z) i
    (c ++ [git_commit message]).
Proof.
  intros Hi Hc R. unfold commit_changes.
  say. next steps_run_command.
  destruct (rc =? 0)%Z; cbn [negb]; say; done.
Qed.

(** ** The confirmation loop *)

Lemma confirm_turn_cases (line : pystr) :
  match confirm_turn line with
  | Accept => In (lower unicode_lower (strip line)) affirmative
  | Reject => In (lower unicode_lower (strip line)) negative
              /\ ~ In (lower unicode_lower (strip line)) affirmative
  | Reprompt => ~ In (lower unicode_lower (strip line)) affirmative
                /\ ~ In (lower unicode_lower (strip line)) negative
  end.
Proof.
  unfold GitPush.confirm_turn. cbv zeta.
  destruct (py_in _ affirmative) eqn:Ea.
  - now apply py_in_In.
  - apply py_in_not_In in Ea.
    destruct (py_in _ negative) eqn:En.
    + apply py_in_In in En. now split.
    + apply py_in_not_In in En. now split.
Qed.

(** No token is both affirmative and negative. *)
Lemma affirmative_negative_disjoint (x : pystr) :
  In x affirmative -> In x negative -> False.
Proof.
  intros Ha Hn. apply py_in_In in Ha. apply py_in_In in Hn.
  revert Hn. unfold py_in, affirmative in Ha. cbn [existsb] in Ha.
  repeat (apply orb_true_iff in Ha as [Ha|Ha];
          [apply pystr_eqb_eq in Ha; subst x; vm_compute; discriminate|]).
  discriminate Ha.
Qed.

Lemma confirm_turn_accept (line : pystr) :
  confirm_turn line = Accept <-> In (lower unicode_lower (strip line)) affirmative.
Proof.
  pose proof (confirm_turn_cases line) as H.
  destruct (confirm_turn line); split; intros K;
    try discriminate K; try reflexivity; try exact H; tauto.
Qed.

Lemma confirm_turn_reject (line : pystr) :
  confirm_turn line = Reject <-> In (lower unicode_lower (strip line)) negative.
Proof.
  pose proof (confirm_turn_cases line) as H.
  pose proof (affirmative_negative_disjoint (lower unicode_lower (strip line))) as D.
  destruct (confirm_turn line); split; intros K;
    try discriminate K; try reflexivity; tauto.
Qed.

Lemma confirm_turn_reprompt (line : pystr) :
  confirm_turn line = Reprompt <->
  ~ In (lower unicode_lower (strip line)) affirmative /\
  ~ In (lower unicode_lower (strip line)) negative.
Proof.
  pose proof (confirm_turn_cases line) as H.
  destruct (confirm_turn line); split; intros K;
    try discriminate K; try reflexivity; tauto.
Qed.

(** The loop goes past every answer it does not understand. *)
Lemma confirm_loop_skips (junk lines : list pystr) (out : pystr) :
  Forall (fun l => confirm_turn l = Reprompt) junk ->
  exists out', confirm_loop (junk ++ lines) out = confirm_loop lines out'.
Proof.
  intros H. revert out.
  induction H as [|l junk Hl _ IH]; intros out.
  - now exists out.
  - cbn [app GitPush.confirm_loop]. rewrite Hl. apply IH.
Qed.

Lemma confirm_loop_decides (answer : pystr) (rest : list pystr) (out : pystr) (b : bool) :
  confirm_turn answer = (if b then Accept else Reject) ->
  confirm_loop (answer :: rest) out = (Ret b, (rest, out ++ confirm_prompt)).
Proof.
  intros H. cbn [GitPush.confirm_loop]. rewrite H. now destruct b.
Qed.

(** The loop returns only on an answer it understands, having gone past the
    ones before it. *)
Lemma confirm_loop_returns (lines : list pystr) (out : pystr) (b : bool) rest out' :
  confirm_loop lines out = (Ret b, (rest, out')) ->
  exists junk answer,
    lines = junk ++ answer :: rest /\
    Forall (fun l => confirm_turn l = Reprompt) junk /\
    confirm_turn answer = (if b then Accept else Reject).
Proof.
  revert out. induction lines as [|l lines IH]; intros out; cbn [GitPush.confirm_loop].
  - discriminate.
  - destruct (confirm_turn l) eqn:El.
    + intros [= <- <- _]. exists [], l. now repeat split.
    + intros [= <- <- _]. exists [], l. now repeat split.
    + intros H. destruct (IH _ H) as (junk & answer & -> & Hj & Ha).
      exists (l :: junk), answer. repeat split; [|exact Ha]. now constructor.
Qed.

(** With no understood answer on standard input the loop never returns: it
    reads to the end and [input] raises. *)
Lemma confirm_loop_starves (lines : list pystr) (out : pystr) :
  Forall (fun l => confirm_turn l = Reprompt) lines ->
  fst (confirm_loop lines out) = Raise EOFError.
Proof.
  intros H. revert out. induction H as [|l lines Hl _ IH]; intros out.
  - reflexivity.
  - cbn [GitPush.confirm_loop]. rewrite Hl. apply IH.
Qed.

Lemma confirm_commit_eq (message : pystr) (w : World) :
  exists out,
    confirm_commit message w =
    (let '(r, (lines, out')) := confirm_loop (stdin w) out in
     (r, mkWorld lines out' (calls w))).
Proof. eexists. reflexivity. Qed.

Lemma steps_confirm_commit message w junk answer rest c (b : bool) :
  stdin w = junk ++ answer :: rest -> calls w = c ->
  Forall (fun l => confirm_turn l = Reprompt) junk ->
  confirm_turn answer = (if b then Accept else Reject) ->
  steps_to (confirm_commit message) w (Ret b) rest c.
Proof.
  intros Hi Hc Hj Ha.
  destruct (confirm_commit_eq message w) as (out & E).
  rewrite Hi in E.
  destruct (confirm_loop_skips junk (answer :: rest) out Hj) as (out' & S).
  rewrite S, (confirm_loop_decides _ _ _ b Ha) in E.
  eexists. split; [exact E|]. split; [reflexivity | exact Hc].
Qed.

Lemma steps_confirm_commit_accepted message w junk answer rest c :
  stdin w = junk ++ answer :: rest -> calls w = c ->
  Forall (fun l => confirm_turn l = Reprompt) junk ->
  confirm_turn answer = Accept ->
  steps_to (confirm_commit message) w (Ret true) rest c.
Proof. intros. now apply steps_confirm_commit with junk answer. Qed.

Lemma steps_confirm_commit_declined message w junk answer rest c :
  stdin w = junk ++ answer :: rest -> calls w = c ->
  Forall (fun l => confirm_turn l = Reprompt) junk ->
  confirm_turn answer = Reject ->
  steps_to (confirm_commit message) w (Ret false) rest c.
Proof. intros. now apply steps_confirm_commit with junk answer. Qed.

Lemma confirm_commit_outcome (message : pystr) (w : World) :
  (exists b, fst (confirm_commit message w) = Ret b) \/
  (fst (confirm_commit message w) = Raise EOFError /\
   Forall (fun l => confirm_turn l = Reprompt) (stdin w)).
Proof.
  destruct (confirm_commit_eq message w) as (out & E). rewrite E. clear E.
  generalize (stdin w) as lines. intros lines. revert out.
  induction lines as [|l lines IH]; intros out; cbn [GitPush.confirm_loop].
  - right. split; [reflexivity | constructor].
  - destruct (confirm_turn l) eqn:El.
    + left. now exists true.
    + left. now exists false.
    + destruct (IH (((out ++ confirm_prompt) ++ u "請輸入 y 或 n" ++ nl)))
        as [Hb|[He Hall]]; [now left | right].
      split; [exact He | now constructor].
Qed.

(** ** The push step *)

Lemma steps_push_to_remote_no_branch w i c rc out err :
  stdin w = i -> calls w = c ->
  returned c git_branch = Some (rc, out, err) -> rc <> 0%Z ->
  steps_to push_to_remote w (Ret false) i (c ++ [git_branch]).
Proof.
  intros Hi Hc R Hrc. unfold GitPush.push_to_remote.
  say. next steps_run_command.
  apply Z.eqb_neq in Hrc. rewrite Hrc. cbn [negb].
  say. done.
Qed.

Lemma steps_push_to_remote w i c branch err rc out err' :
  stdin w = i -> calls w = c ->
  returned c git_branch = Some (0%Z, branch, err) ->
  returned (c ++ [git_branch]) (git_push (strip branch)) = Some (rc, out, err') ->
  steps_to push_to_remote w (Ret (rc =? 0)%Z) i
    (c ++ [git_branch; git_push (strip branch)]).
Proof.
  intros Hi Hc R R'. unfold GitPush.push_to_remote.
  say. next steps_run_command. cbn [Z.eqb negb].
  next steps_run_command.
  rewrite <- app_assoc in Hc2. cbn [app] in Hc2.
  destruct (rc =? 0)%Z; cbn [negb]; say; done.
Qed.

Lemma steps_push_to_remote_uncaught w i c branch err t :
  stdin w = i -> calls w = c ->
  returned c git_branch = Some (0%Z, branch, err) ->
  subprocess_run (c ++ [git_branch]) (git_push (strip branch))
    = Raises (PyBaseException t) ->
  steps_to push_to_remote w (Raise (PyBaseException t)) i
    (c ++ [git_branch; git_push (strip branch)]).
Proof.
  intros Hi Hc R R'. unfold GitPush.push_to_remote.
  say. next steps_run_command. cbn [Z.eqb negb].
  apply steps_bind_raise.
  replace (c ++ [git_branch; git_push (strip branch)])
    with ((c ++ [git_branch]) ++ [git_push (strip branch)])
    by (now rewrite <- app_assoc).
  now apply steps_run_command_uncaught.
Qed.

(** Once the branch is known, [git push origin <branch>] is the next command
    issued, however it then fares. *)
Lemma push_to_remote_issues_push w branch err :
  returned (calls w) git_branch = Some (0%Z, branch, err) ->
  exists r,
    steps_to push_to_remote w r (stdin w)
      (calls w ++ [git_branch; git_push (strip branch)]).
Proof.
  intros R.
  destruct (subprocess_run (calls w ++ [git_branch]) (git_push (strip branch)))
    as [rc out err'|[t|t]] eqn:E.
  - eexists. eapply steps_push_to_remote; try reflexivity; [exact R|].
    unfold GitPush.returned. rewrite E. reflexivity.
  - eexists. eapply steps_push_to_remote; try reflexivity; [exact R|].
    unfold GitPush.returned. rewrite E. reflexivity.
  - eexists. eapply steps_push_to_remote_uncaught; try reflexivity; eassumption.
Qed.

(** ** Whole runs *)

Lemma script_of_steps (lines : list pystr) r i c :
  (forall w, stdin w = lines -> calls w = [] -> steps_to main w r i c) ->
  fst (script lines) = termination_of r /\
  stdin (snd (script lines)) = i /\
  calls (snd (script lines)) = c.
Proof.
  intros H.
  destruct (H (mkWorld lines [] []) eq_refl eq_refl) as (w' & E & Hi & Hc).
  unfold GitPush.script. rewrite E. auto.
Qed.

(** The run up to the point where staging has succeeded. *)
Ltac to_the_prompt Hdirty :=
  unfold GitPush.main;
  say; say;
  next steps_check_git_repository;
  cbn [Z.eqb]; pass;
  next steps_get_git_status;
  cbn [Z.eqb]; rewrite Hdirty; pass;
  say; say;
  next steps_add_all_files;
  cbn [Z.eqb]; pass.

Lemma steps_main_not_a_repository w lines rc out err :
  stdin w = lines -> calls w = [] ->
  returned [] git_rev_parse = Some (rc, out, err) -> rc <> 0%Z ->
  steps_to main w (SysExit 1) lines [git_rev_parse].
Proof.
  intros Hi Hc R Hrc. unfold GitPush.main.
  say. say. next steps_check_git_repository.
  apply Z.eqb_neq in Hrc. rewrite Hrc.
  bail. say. say. leave.
Qed.

(** Whatever [git status] answered, an empty status as [get_git_status] hands
    it back ends the run with [sys.exit(0)]. *)
Lemma steps_main_no_changes w lines out1 err1 rc out err :
  stdin w = lines -> calls w = [] ->
  returned [] git_rev_parse = Some (0%Z, out1, err1) ->
  returned [git_rev_parse] git_status = Some (rc, out, err) ->
  truthy (if (rc =? 0)%Z then out else []) = false ->
  steps_to main w (SysExit 0) lines [git_rev_parse; git_status].
Proof.
  intros Hi Hc R1 R2 Hfalse. unfold GitPush.main.
  say. say. next steps_check_git_repository. cbn [Z.eqb]. pass.
  next steps_get_git_status. rewrite Hfalse.
  bail. say. leave.
Qed.

(** The run up to the point where the operator has confirmed and the commit
    has been made. *)
Ltac to_the_push Hdirty Hmsg :=
  to_the_prompt Hdirty;
  next steps_get_commit_message;
  rewrite Hmsg; cbn [truthy_opt the_str]; rewrite Hmsg; pass;
  next steps_confirm_commit_accepted;
  pass;
  next steps_commit_changes;
  cbn [Z.eqb]; pass.

(** C2. Outside a repository (the repository check hands back a non-zero
    code) the process exits with code 1, and the check is the only command
    it has run: nothing was staged, committed or pushed. *)
Theorem not_a_repository_exits_1 (lines : list pystr) rc out err :
  returned [] git_rev_parse = Some (rc, out, err) ->
  rc <> 0%Z ->
  fst (script lines) = Exited 1 /\
  calls (snd (script lines)) = [git_rev_parse] /\
  mutations (calls (snd (script lines))) = [].
Proof.
  intros R Hrc.
  destruct (script_of_steps lines (SysExit 1) lines [git_rev_parse])
    as (Ht & _ & Hcalls).
  - intros w Hi Hc. eapply steps_main_not_a_repository; eassumption.
  - rewrite Ht, Hcalls. repeat split.
Qed.

(** C3. When the status query succeeds with empty text, the process exits
    with code 0 having run the repository check and the status query only:
    nothing was staged, committed or pushed. *)
Theorem clean_status_exits_0 (lines : list pystr) out1 err1 err2 :
  returned [] git_rev_parse = Some (0%Z, out1, err1) ->
  returned [git_rev_parse] git_status = Some (0%Z, [], err2) ->
  fst (script lines) = Exited 0 /\
  calls (snd (script lines)) = [git_rev_parse; git_status] /\
  mutations (calls (snd (script lines))) = [].
Proof.
  intros R1 R2.
  destruct (script_of_steps lines (SysExit 0) lines [git_rev_parse; git_status])
    as (Ht & _ & Hcalls).
  - intros w Hi Hc. eapply steps_main_no_changes; try eassumption. reflexivity.
  - rewrite Ht, Hcalls. repeat split.
Qed.

(** A status query that fails is taken for a clean tree. *)
Lemma failed_status_exits_0 (lines : list pystr) out1 err1 rc out err :
  returned [] git_rev_parse = Some (0%Z, out1, err1) ->
  returned [git_rev_parse] git_status = Some (rc, out, err) ->
  rc <> 0%Z ->
  fst (script lines) = Exited 0 /\
  calls (snd (script lines)) = [git_rev_parse; git_status].
Proof.
  intros R1 R2 Hrc.
  destruct (script_of_steps lines (SysExit 0) lines [git_rev_parse; git_status])
    as (Ht & _ & Hcalls).
  - intros w Hi Hc. eapply steps_main_no_changes; try eassumption.
    apply Z.eqb_neq in Hrc. now rewrite Hrc.
  - now rewrite Ht, Hcalls.
Qed.

(** C5. When the run reaches the message prompt (repository found, status
    not empty, staging succeeded) and the operator's line is made of
    whitespace only, the empty line included, the process exits with code 1;
    the stage command has run, no commit or push command has. *)
Theorem blank_message_exits_1_after_staging
  (line : pystr) (rest : list pystr) out1 err1 status err2 out3 err3 :
  returned [] git_rev_parse = Some (0%Z, out1, err1) ->
  returned [git_rev_parse] git_status = Some (0%Z, status, err2) ->
  truthy status = true ->
  returned [git_rev_parse; git_status] git_add = Some (0%Z, out3, err3) ->
  forallb py_isspace line = true ->
  fst (script (line :: rest)) = Exited 1 /\
  calls (snd (script (line :: rest))) = [git_rev_parse; git_status; git_add] /\
  mutations (calls (snd (script (line :: rest)))) = [Stage].
Proof.
  intros R1 R2 Hdirty R3 Hblank.
  destruct (script_of_steps (line :: rest) (SysExit 1) rest
              [git_rev_parse; git_status; git_add]) as (Ht & _ & Hcalls).
  - intros w Hi Hc.
    to_the_prompt Hdirty.
    next steps_get_commit_message.
    rewrite (strip_all_space line Hblank). cbn [truthy truthy_opt].
    bail. leave.
  - rewrite Ht, Hcalls. repeat split.
Qed.

(** C7. When the run reaches the confirmation (repository found, status not
    empty, staging succeeded, message not blank) and the operator declines,
    perhaps after answers that were not understood, the process exits with
    code 0; the stage command has run, no commit or push command has. *)
Theorem declined_confirmation_exits_0
  (line : pystr) (junk : list pystr) (answer : pystr) (rest : list pystr)
  out1 err1 status err2 out3 err3 :
  returned [] git_rev_parse = Some (0%Z, out1, err1) ->
  returned [git_rev_parse] git_status = Some (0%Z, status, err2) ->
  truthy status = true ->
  returned [git_rev_parse; git_status] git_add = Some (0%Z, out3, err3) ->
  truthy (strip line) = true ->
  Forall (fun l => confirm_turn l = Reprompt) junk ->
  confirm_turn answer = Reject ->
  let run := script (line :: junk ++ answer :: rest) in
  fst run = Exited 0 /\
  calls (snd run) = [git_rev_parse; git_status; git_add] /\
  mutations (calls (snd run)) = [Stage].
Proof.
  intros R1 R2 Hdirty R3 Hmsg Hjunk Hno run. subst run.
  destruct (script_of_steps (line :: junk ++ answer :: rest) (SysExit 0) rest
              [git_rev_parse; git_status; git_add]) as (Ht & _ & Hcalls).
  - intros w Hi Hc.
    to_the_prompt Hdirty.
    next steps_get_commit_message.
    rewrite Hmsg. cbn [truthy_opt the_str]. rewrite Hmsg. pass.
    next steps_confirm_commit_declined.
    bail. say. leave.
  - rewrite Ht, Hcalls. repeat split.
Qed.

(** C8. When the run reaches the push step (repository found, status not
    empty, staging succeeded, message not blank, confirmation given, commit
    made) and the branch query hands back a non-zero code, the process exits
    with code 1 and the branch query is the last command it has run: no push
    command was issued. *)
Theorem branch_failure_exits_1_without_push
  (line : pystr) (junk : list pystr) (answer : pystr) (rest : list pystr)
  out1 err1 status err2 out3 err3 out4 err4 rc out5 err5 :
  returned [] git_rev_parse = Some (0%Z, out1, err1) ->
  returned [git_rev_parse] git_status = Some (0%Z, status, err2) ->
  truthy status = true ->
  returned [git_rev_parse; git_status] git_add = Some (0%Z, out3, err3) ->
  truthy (strip line) = true ->
  Forall (fun l => confirm_turn l = Reprompt) junk ->
  confirm_turn answer = Accept ->
  returned [git_rev_parse; git_status; git_add] (git_commit (strip line))
    = Some (0%Z, out4, err4) ->
  returned [git_rev_parse; git_status; git_add; git_commit (strip line)]
    git_branch = Some (rc, out5, err5) ->
  rc <> 0%Z ->
  let run := script (line :: junk ++ answer :: rest) in
  fst run = Exited 1 /\
  calls (snd run) = [git_rev_parse; git_status; git_add;
                     git_commit (strip line); git_branch] /\
  mutations (calls (snd run)) = [Stage; Commit].
Proof.
  intros R1 R2 Hdirty R3 Hmsg Hjunk Hyes R4 R5 Hrc run. subst run.
  destruct (script_of_steps (line :: junk ++ answer :: rest) (SysExit 1) rest
              [git_rev_parse; git_status; git_add;
               git_commit (strip line); git_branch]) as (Ht & _ & Hcalls).
  - intros w Hi Hc.
    to_the_push Hdirty Hmsg.
    next steps_push_to_remote_no_branch.
    bail. leave.
  - rewrite Ht, Hcalls. repeat split.
Qed.

(** C1, amended. In a repository whose status is [M file.txt], with the
    message [fix bug] and an affirmative answer to the confirmation, and
    with the stage, commit, branch and push commands all handing back code
    0, the process exits with code 0 and has issued stage, commit and push
    once each, in that order. *)
Theorem round_trip
  (line : pystr) (junk : list pystr) (answer : pystr) (rest : list pystr)
  out1 err1 err2 out3 err3 out4 err4 branch err5 out6 err6 :
  returned [] git_rev_parse = Some (0%Z, out1, err1) ->
  returned [git_rev_parse] git_status = Some (0%Z, u "M file.txt", err2) ->
  returned [git_rev_parse; git_status] git_add = Some (0%Z, out3, err3) ->
  strip line = u "fix bug" ->
  Forall (fun l => confirm_turn l = Reprompt) junk ->
  confirm_turn answer = Accept ->
  returned [git_rev_parse; git_status; git_add] (git_commit (u "fix bug"))
    = Some (0%Z, out4, err4) ->
  returned [git_rev_parse; git_status; git_add; git_commit (u "fix bug")]
    git_branch = Some (0%Z, branch, err5) ->
  returned [git_rev_parse; git_status; git_add; git_commit (u "fix bug");
            git_branch] (git_push (strip branch)) = Some (0%Z, out6, err6) ->
  let run := script (line :: junk ++ answer :: rest) in
  fst run = Exited 0 /\
  calls (snd run) = [git_rev_parse; git_status; git_add;
                     git_commit (u "fix bug"); git_branch;
                     git_push (strip branch)] /\
  mutations (calls (snd run)) = [Stage; Commit; Push].
Proof.
  intros R1 R2 R3 Hline Hjunk Hyes R4 R5 R6 run. subst run.
  assert (Hdirty : truthy (u "M file.txt") = true) by reflexivity.
  assert (Hmsg : truthy (strip line) = true) by (now rewrite Hline).
  rewrite <- Hline in R4, R5, R6.
  destruct (script_of_steps (line :: junk ++ answer :: rest) (Ret tt) rest
              [git_rev_parse; git_status; git_add; git_commit (strip line);
               git_branch; git_push (strip branch)]) as (Ht & _ & Hcalls).
  - intros w Hi Hc.
    to_the_push Hdirty Hmsg.
    next steps_push_to_remote.
    cbn [Z.eqb]. pass.
    say. say. eapply steps_print; assumption.
  - rewrite Ht, Hcalls, Hline. repeat split.
Qed.

(** C9. In the push step, once the branch query has succeeded, the next
    command issued is [git push origin <branch>], with the remote [origin]
    and the branch name the query printed (trimmed) as its two targets; and
    the step returns [False] when the branch query, or the push itself,
    hands back a non-zero code. *)
Theorem push_to_remote_targets_origin_and_branch (w : World) :
  (forall branch err,
      returned (calls w) git_branch = Some (0%Z, branch, err) ->
      calls (snd (push_to_remote w))
      = calls w ++ [git_branch; [u "git"; u "push"; u "origin"; strip branch]])
  /\
  (forall rc out err,
      returned (calls w) git_branch = Some (rc, out, err) -> rc <> 0%Z ->
      fst (push_to_remote w) = Ret false /\
      calls (snd (push_to_remote w)) = calls w ++ [git_branch])
  /\
  (forall branch err rc out err',
      returned (calls w) git_branch = Some (0%Z, branch, err) ->
      returned (calls w ++ [git_branch])
        [u "git"; u "push"; u "origin"; strip branch] = Some (rc, out, err') ->
      rc <> 0%Z ->
      fst (push_to_remote w) = Ret false).
Proof.
  split; [|split].
  - intros branch err R.
    destruct (push_to_remote_issues_push w branch err R) as (r & H).
    destruct (steps_to_fun _ _ _ _ _ _ _ _ H (steps_to_total push_to_remote w))
      as (_ & _ & E).
    symmetry. exact E.
  - intros rc out err R Hrc.
    pose proof (steps_push_to_remote_no_branch w _ _ rc out err
                  eq_refl eq_refl R Hrc) as H.
    destruct (steps_to_fun _ _ _ _ _ _ _ _ H (steps_to_total push_to_remote w))
      as (E1 & _ & E2).
    now split.
  - intros branch err rc out err' R R' Hrc.
    pose proof (steps_push_to_remote w _ _ branch err rc out err'
                  eq_refl eq_refl R R') as H.
    destruct (steps_to_fun _ _ _ _ _ _ _ _ H (steps_to_total push_to_remote w))
      as (E1 & _ & _).
    apply Z.eqb_neq in Hrc. rewrite Hrc in E1. now symmetry.
Qed.

(** ** What holds of every run *)

Lemma always_ret {A} (a : A) c0 (Q : Result A -> list (list pystr) -> Prop) :
  Q (Ret a) c0 -> always (ret a) c0 Q.
Proof. intros H w <-. exact H. Qed.

Lemma always_print (s : pystr) c0 (Q : Result unit -> list (list pystr) -> Prop) :
  Q (Ret tt) c0 -> always (print s) c0 Q.
Proof. intros H w <-. exact H. Qed.

Lemma always_sys_exit {A} (code : Z) c0 (Q : Result A -> list (list pystr) -> Prop) :
  Q (SysExit code) c0 -> always (@sys_exit A code) c0 Q.
Proof. intros H w <-. exact H. Qed.

Lemma always_bind {A B} (m : M A) (k : A -> M B) c0
  (Q : Result B -> list (list pystr) -> Prop) :
  always m c0 (fun r c1 =>
                 match r with
                 | Ret a => always (k a) c1 Q
                 | Raise e => Q (Raise e) c1
                 | SysExit code => Q (SysExit code) c1
                 end) ->
  always (bind m k) c0 Q.
Proof.
  intros H w Hc. specialize (H w Hc). unfold bind.
  destruct (m w) as [[a|e|code] w1]; cbn [fst snd] in *; auto.
Qed.

Lemma always_input (prompt : pystr) c0
  (Q : Result pystr -> list (list pystr) -> Prop) :
  (forall line, Q (Ret line) c0) -> Q (Raise EOFError) c0 ->
  always (input prompt) c0 Q.
Proof.
  intros H He w <-. unfold input. destruct (stdin w); [apply He | apply H].
Qed.

Lemma always_run_command (command : list pystr) c0
  (Q : Result (Z * pystr * pystr) -> list (list pystr) -> Prop) :
  (forall t, Q (Ret t) (c0 ++ [command])) ->
  (forall e, Q (Raise e) (c0 ++ [command])) ->
  always (run_command command) c0 Q.
Proof.
  intros H He w <-. rewrite run_command_eq. cbv zeta.
  destruct (subprocess_run (calls w) command) as [rc out err|[t|t]];
    [apply H | apply H | apply He].
Qed.

Lemma always_confirm_commit (message : pystr) c0
  (Q : Result bool -> list (list pystr) -> Prop) :
  (forall b, Q (Ret b) c0) -> Q (Raise EOFError) c0 ->
  always (confirm_commit message) c0 Q.
Proof.
  intros H He w <-.
  destruct (confirm_commit_eq message w) as (out & E').
  assert (Hc : calls (snd (confirm_commit message w)) = calls w).
  { rewrite E'. destruct (confirm_loop (stdin w) out) as [r [lines out']].
    reflexivity. }
  rewrite Hc.
  destruct (confirm_commit_outcome message w) as [(b & ->)|(-> & _)];
    [apply H | apply He].
Qed.

(** Every way through [main]: sequence, output, exit, the three kinds of
    call to the outside, and the tests on what they hand back. *)
Ltac walk :=
  repeat
    (cbn beta iota delta [when negb truthy_opt the_str];
     lazymatch goal with
     | |- always (bind _ _) _ _ => apply always_bind
     | |- always (print _) _ _ => apply always_print
     | |- always (ret _) _ _ => apply always_ret
     | |- always (sys_exit _) _ _ => apply always_sys_exit
     | |- always (GitPush.run_command _ _) _ _ =>
         apply always_run_command; [intros [[? ?] ?] | intros ?]
     | |- always (input _) _ _ => apply always_input; [intros ? |]
     | |- always (GitPush.confirm_commit _ _) _ _ =>
         apply always_confirm_commit; [intros [|] |]
     | |- context [(?rc =? 0)%Z] => destruct (rc =? 0)%Z
     | |- context [truthy ?s] => destruct (truthy s)
     end).

Lemma main_always :
  always main []
    (fun r c =>
       (forall code, r = SysExit code -> code = 0%Z \/ code = 1%Z) /\
       (forall x, r = Ret x -> mutations c = [Stage; Commit; Push]) /\
       (exists k, mutations c = firstn k [Stage; Commit; Push])).
Proof.
  unfold GitPush.main, check_git_repository, get_git_status, add_all_files,
    get_commit_message, commit_changes, GitPush.push_to_remote.
  walk.
  all: split; [intros code' E; try discriminate E; injection E as <-; auto|].
  all: split; [intros x E; try discriminate E; reflexivity|].
  all: first [ now exists 0%nat | now exists 1%nat
             | now exists 2%nat | now exists 3%nat ].
Qed.

(** X1. In every run, whatever the commands answer and whatever the
    operator types, the exit code is 0 or 1 unless an exception ends the process, and
    the mutating commands issued are an initial part of stage, commit, push:
    none is issued twice or out of turn.  The end of [main] is reached only
    with all three issued. *)
Lemma every_run (lines : list pystr) :
  (fst (script lines) = Exited 0 \/ fst (script lines) = Exited 1 \/
   exists e, fst (script lines) = Traceback e) /\
  (exists k, mutations (calls (snd (script lines)))
             = firstn k [Stage; Commit; Push]).
Proof.
  pose proof (main_always (mkWorld lines [] []) eq_refl) as (Hcode & _ & Hk).
  unfold GitPush.script.
  destruct (main (mkWorld lines [] [])) as [[x|e|code] w]; cbn [fst snd] in *.
  - split; [now left | exact Hk].
  - split; [right; right; now exists e | exact Hk].
  - split; [|exact Hk].
    destruct (Hcode code eq_refl) as [-> | ->]; auto.
Qed.

(** ** Answers in ASCII *)

Lemma ascii_lower_ascii (s : pystr) :
  forallb is_ascii s = true -> forallb is_ascii (map ascii_lower s) = true.
Proof.
  induction s as [|c r IH]; cbn [map forallb]; [reflexivity|].
  intros H. apply andb_true_iff in H as [Hc Hr].
  rewrite (IH Hr), andb_true_r.
  unfold is_ascii, ascii_lower in *. apply N.ltb_lt in Hc. apply N.ltb_lt.
  destruct ((65 <=? c) && (c <=? 90))%N eqn:E; [|exact Hc].
  apply andb_true_iff in E as [_ E]. apply N.leb_le in E. lia.
Qed.

Lemma lower_ascii (s : pystr) :
  forallb is_ascii s = true -> lower unicode_lower s = map ascii_lower s.
Proof. intros H. unfold lower. now rewrite H. Qed.

Lemma ascii_affirmative (x : pystr) :
  forallb is_ascii x = true ->
  In x affirmative <-> x = u "y" \/ x = u "yes".
Proof.
  intros Hx. unfold affirmative. cbn [In]. split.
  - intros [E|[E|[E|[E|[]]]]]; auto; subst x; vm_compute in Hx; discriminate.
  - intros [E|E]; auto.
Qed.

Lemma ascii_negative (x : pystr) :
  forallb is_ascii x = true ->
  In x negative <-> x = u "n" \/ x = u "no".
Proof.
  intros Hx. unfold negative. cbn [In]. split.
  - intros [E|[E|[E|[E|[]]]]]; auto; subst x; vm_compute in Hx; discriminate.
  - intros [E|E]; auto.
Qed.

(** The tokens carry no blanks of their own. *)
Lemma strip_token (t : pystr) : In t (affirmative ++ negative) -> strip t = t.
Proof.
  unfold affirmative, negative. cbn [app In].
  intros H. repeat (destruct H as [<-|H]; [vm_compute; reflexivity|]).
  destruct H.
Qed.

(** C6. The confirmation step, one input line at a time.  A line is accepted
    exactly when, trimmed and lower-cased, it is one of the four affirmative
    tokens, rejected exactly when it is one of the four negative tokens, and
    otherwise the prompt is repeated and the next line decides.  The step
    returns [True] or [False] only on an affirmative or negative line, after
    re-prompting on every line before it; it never exits the process, and it
    raises only [EOFError], when standard input ends before any recognised
    token.  For lines of ASCII text, lower-casing is letter by letter and the
    tokens are [y], [yes], [n], [no]; and each of the eight tokens, typed as
    it stands, is recognised as soon as lower-casing leaves it as it is. *)
Theorem confirm_commit_three_way :
  (forall line,
      confirm_turn line = Accept
      <-> In (lower unicode_lower (strip line)) [u "y"; u "yes"; u "是"; u "確認"])
  /\
  (forall line,
      confirm_turn line = Reject
      <-> In (lower unicode_lower (strip line)) [u "n"; u "no"; u "否"; u "取消"])
  /\
  (forall line,
      confirm_turn line = Reprompt
      <-> ~ In (lower unicode_lower (strip line)) affirmative /\
          ~ In (lower unicode_lower (strip line)) negative)
  /\
  (forall line rest out,
      confirm_loop (line :: rest) out =
      match confirm_turn line with
      | Accept => (Ret true, (rest, out ++ confirm_prompt))
      | Reject => (Ret false, (rest, out ++ confirm_prompt))
      | Reprompt =>
          confirm_loop rest ((out ++ confirm_prompt) ++ u "請輸入 y 或 n" ++ nl)
      end)
  /\
  (forall message w (b : bool) w',
      confirm_commit message w = (Ret b, w') ->
      exists junk answer,
        stdin w = junk ++ answer :: stdin w' /\
        Forall (fun l => confirm_turn l = Reprompt) junk /\
        confirm_turn answer = (if b then Accept else Reject))
  /\
  (forall message w junk answer rest (b : bool),
      stdin w = junk ++ answer :: rest ->
      Forall (fun l => confirm_turn l = Reprompt) junk ->
      confirm_turn answer = (if b then Accept else Reject) ->
      fst (confirm_commit message w) = Ret b /\
      stdin (snd (confirm_commit message w)) = rest /\
      calls (snd (confirm_commit message w)) = calls w)
  /\
  (forall message w,
      (exists b, fst (confirm_commit message w) = Ret b) \/
      (fst (confirm_commit message w) = Raise EOFError /\
       Forall (fun l => confirm_turn l = Reprompt) (stdin w)))
  /\
  (forall line,
      forallb is_ascii line = true ->
      (confirm_turn line = Accept
       <-> map ascii_lower (strip line) = u "y"
           \/ map ascii_lower (strip line) = u "yes") /\
      (confirm_turn line = Reject
       <-> map ascii_lower (strip line) = u "n"
           \/ map ascii_lower (strip line) = u "no"))
  /\
  (forall t, lower unicode_lower t = t ->
      (In t affirmative -> confirm_turn t = Accept) /\
      (In t negative -> confirm_turn t = Reject)).
Proof.
  split; [exact confirm_turn_accept|].
  split; [exact confirm_turn_reject|].
  split; [exact confirm_turn_reprompt|].
  split; [reflexivity|].
  split; [|split; [|split; [exact confirm_commit_outcome|]]].
  - intros message w b w' E.
    destruct (confirm_commit_eq message w) as (out & E'). rewrite E in E'.
    destruct (confirm_loop (stdin w) out) as [r [lines out']] eqn:L.
    injection E' as <- ->. cbn [stdin].
    exact (confirm_loop_returns _ _ _ _ _ L).
  - intros message w junk answer rest b Hi Hj Ha.
    pose proof (steps_confirm_commit message w junk answer rest (calls w) b
                  Hi eq_refl Hj Ha) as H.
    destruct (steps_to_fun _ _ _ _ _ _ _ _ H
                (steps_to_total (confirm_commit message) w)) as (E1 & E2 & E3).
    now repeat split.
  - split.
    + intros line Hascii.
      pose proof (strip_ascii line Hascii) as Hs.
      rewrite confirm_turn_accept, confirm_turn_reject, (lower_ascii _ Hs).
      split; [apply ascii_affirmative | apply ascii_negative];
        now apply ascii_lower_ascii.
    + intros t Hl. split; intros Hin.
      * apply confirm_turn_accept.
        rewrite (strip_token t), Hl; [exact Hin | apply in_or_app; now left].
      * apply confirm_turn_reject.
        rewrite (strip_token t), Hl; [exact Hin | apply in_or_app; now right].
Qed.

(** C10, amended. [run_command] hands back the triple of the completed
    process when [subprocess.run] returns, and [(1, "", str(e))] when it
    raises an exception [e] that is an instance of [Exception]; an exception
    that is not (a [KeyboardInterrupt], say) goes on to the caller.  In every
    case the command has been issued and standard input is untouched; and a
    caller that goes on with the triple cannot tell an [Exception] with text
    [t] from a command that completed with code 1, no output and [t] on its
    standard error. *)
Theorem run_command_catches_Exception (command : list pystr) (w : World) :
  fst (run_command command w)
  = match subprocess_run (calls w) command with
    | Completed rc out err => Ret (rc, out, err)
    | Raises (PyException t) => Ret (1%Z, [], t)
    | Raises (PyBaseException t) => Raise (PyBaseException t)
    end
  /\ calls (snd (run_command command w)) = calls w ++ [command]
  /\ stdin (snd (run_command command w)) = stdin w
  /\ (forall (B : Type) (k : Z * pystr * pystr -> M B) t,
        (subprocess_run (calls w) command = Raises (PyException t) \/
         subprocess_run (calls w) command = Completed 1 [] t) ->
        exists w1,
          bind (run_command command) k w = k (1%Z, [], t) w1 /\
          stdin w1 = stdin w /\ calls w1 = calls w ++ [command]).
Proof.
  rewrite run_command_eq. cbv zeta.
  repeat split.
  - destruct (subprocess_run (calls w) command) as [rc out err|[t|t]]; reflexivity.
  - destruct (subprocess_run (calls w) command) as [rc out err|[t|t]]; reflexivity.
  - destruct (subprocess_run (calls w) command) as [rc out err|[t|t]]; reflexivity.
  - intros B k t [E|E]; unfold bind; rewrite run_command_eq, E;
      eexists; (split; [reflexivity | split; reflexivity]).
Qed.

(** ** What [strip] leaves *)

Lemma lstrip_head (s : pystr) :
  lstrip s = [] \/ exists c r, lstrip s = c :: r /\ py_isspace c = false.
Proof.
  induction s as [|c r IH]; cbn [lstrip]; [now left|].
  destruct (py_isspace c) eqn:E; [exact IH | right; now exists c, r].
Qed.

Lemma lstrip_nil_iff (s : pystr) :
  lstrip s = [] <-> forallb py_isspace s = true.
Proof.
  split; [|apply lstrip_all_space].
  induction s as [|c r IH]; cbn [lstrip forallb]; [reflexivity|].
  destruct (py_isspace c); [exact IH | discriminate].
Qed.

Lemma lstrip_app_nonspace (a : pystr) (c : N) :
  py_isspace c = false -> lstrip (a ++ [c]) = lstrip a ++ [c].
Proof.
  intros Hc. induction a as [|x a IH]; cbn [app lstrip].
  - now rewrite Hc.
  - destruct (py_isspace x); [exact IH | reflexivity].
Qed.

Lemma lstrip_fixed (s : pystr) :
  (forall c r, s = c :: r -> py_isspace c = false) -> lstrip s = s.
Proof.
  destruct s as [|c r]; [reflexivity|]. intros H. cbn [lstrip].
  now rewrite (H c r eq_refl).
Qed.

Lemma lstrip_no_leading (s : pystr) c r :
  lstrip s = c :: r -> py_isspace c = false.
Proof.
  intros E. destruct (lstrip_head s) as [H|(c' & r' & H & Hc)];
    rewrite H in E; [discriminate | now injection E as <- _].
Qed.

Lemma strip_nil_iff (s : pystr) :
  strip s = [] <-> forallb py_isspace s = true.
Proof.
  split; [|apply strip_all_space].
  intros E. apply lstrip_nil_iff.
  unfold strip, rstrip in E.
  destruct (lstrip_head s) as [H|(c & r & H & Hc)]; [exact H|].
  rewrite H in E. cbn [rev] in E. rewrite (lstrip_app_nonspace _ _ Hc) in E.
  rewrite rev_app_distr in E. discriminate E.
Qed.

Lemma strip_no_leading (s : pystr) c r :
  strip s = c :: r -> py_isspace c = false.
Proof.
  unfold strip, rstrip.
  destruct (lstrip_head s) as [H|(c' & r' & H & Hc)]; rewrite H.
  - discriminate.
  - cbn [rev]. rewrite (lstrip_app_nonspace _ _ Hc), rev_app_distr.
    cbn [rev app]. now intros [= <- _].
Qed.

Lemma strip_no_trailing (s : pystr) r c :
  strip s = r ++ [c] -> py_isspace c = false.
Proof.
  unfold strip, rstrip. intros E.
  apply (f_equal (@rev N)) in E.
  rewrite rev_involutive, rev_app_distr in E. cbn [rev app] in E.
  exact (lstrip_no_leading _ _ _ E).
Qed.

Lemma strip_idempotent (s : pystr) : strip (strip s) = strip s.
Proof.
  unfold strip at 1.
  rewrite (lstrip_fixed (strip s)) by apply strip_no_leading.
  unfold strip, rstrip. rewrite rev_involutive.
  rewrite (lstrip_fixed (lstrip (rev (lstrip s)))); [reflexivity|].
  apply lstrip_no_leading.
Qed.

(** ** Where a failure stops the run *)

Lemma steps_input_eof prompt w c :
  stdin w = [] -> calls w = c -> steps_to (input prompt) w (Raise EOFError) [] c.
Proof.
  intros Hi Hc. unfold steps_to, input. rewrite Hi.
  eexists; split; [reflexivity | split; [reflexivity | exact Hc]].
Qed.

Lemma steps_get_commit_message_eof w c :
  stdin w = [] -> calls w = c ->
  steps_to get_commit_message w (Raise EOFError) [] c.
Proof.
  intros Hi Hc. unfold get_commit_message.
  say. say. say. apply steps_bind_raise. now apply steps_input_eof.
Qed.

Lemma confirm_loop_starved (lines : list pystr) (out : pystr) :
  Forall (fun l => confirm_turn l = Reprompt) lines ->
  exists out', confirm_loop lines out = (Raise EOFError, ([], out')).
Proof.
  intros H. revert out. induction H as [|l lines Hl _ IH]; intros out.
  - eexists. reflexivity.
  - cbn [GitPush.confirm_loop]. rewrite Hl. apply IH.
Qed.

Lemma steps_confirm_commit_starved message w lines c :
  stdin w = lines -> calls w = c ->
  Forall (fun l => confirm_turn l = Reprompt) lines ->
  steps_to (confirm_commit message) w (Raise EOFError) [] c.
Proof.
  intros Hi Hc H.
  destruct (confirm_commit_eq message w) as (out & E). rewrite Hi in E.
  destruct (confirm_loop_starved lines out H) as (out' & S). rewrite S in E.
  eexists. split; [exact E | split; [reflexivity | exact Hc]].
Qed.

(** X4. When staging fails ([git add] hands back a non-zero code) the
    process exits with code 1 at once: the operator is not asked for a
    message (standard input is left as it was) and no commit or push command
    is issued. *)
Theorem stage_failure_exits_1_before_prompt
  (lines : list pystr) out1 err1 status err2 rc out3 err3 :
  returned [] git_rev_parse = Some (0%Z, out1, err1) ->
  returned [git_rev_parse] git_status = Some (0%Z, status, err2) ->
  truthy status = true ->
  returned [git_rev_parse; git_status] git_add = Some (rc, out3, err3) ->
  rc <> 0%Z ->
  fst (script lines) = Exited 1 /\
  stdin (snd (script lines)) = lines /\
  calls (snd (script lines)) = [git_rev_parse; git_status; git_add] /\
  mutations (calls (snd (script lines))) = [Stage].
Proof.
  intros R1 R2 Hdirty R3 Hrc.
  destruct (script_of_steps lines (SysExit 1) lines
              [git_rev_parse; git_status; git_add]) as (Ht & Hin & Hcalls).
  - intros w Hi Hc. unfold GitPush.main.
    say. say. next steps_check_git_repository. cbn [Z.eqb]. pass.
    next steps_get_git_status. cbn [Z.eqb]. rewrite Hdirty. pass.
    say. say. next steps_add_all_files.
    apply Z.eqb_neq in Hrc. rewrite Hrc.
    bail. leave.
  - rewrite Ht, Hin, Hcalls. repeat split.
Qed.

(** X5. When the commit fails ([git commit] hands back a non-zero code
    after the operator has confirmed) the process exits with code 1 without
    asking for the branch and without pushing; the changes stay staged. *)
Theorem commit_failure_exits_1_without_push
  (line : pystr) (junk : list pystr) (answer : pystr) (rest : list pystr)
  out1 err1 status err2 out3 err3 rc out4 err4 :
  returned [] git_rev_parse = Some (0%Z, out1, err1) ->
  returned [git_rev_parse] git_status = Some (0%Z, status, err2) ->
  truthy status = true ->
  returned [git_rev_parse; git_status] git_add = Some (0%Z, out3, err3) ->
  truthy (strip line) = true ->
  Forall (fun l => confirm_turn l = Reprompt) junk ->
  confirm_turn answer = Accept ->
  returned [git_rev_parse; git_status; git_add] (git_commit (strip line))
    = Some (rc, out4, err4) ->
  rc <> 0%Z ->
  let run := script (line :: junk ++ answer :: rest) in
  fst run = Exited 1 /\
  stdin (snd run) = rest /\
  calls (snd run) = [git_rev_parse; git_status; git_add;
                     git_commit (strip line)] /\
  mutations (calls (snd run)) = [Stage; Commit].
Proof.
  intros R1 R2 Hdirty R3 Hmsg Hjunk Hyes R4 Hrc run. subst run.
  destruct (script_of_steps (line :: junk ++ answer :: rest) (SysExit 1) rest
              [git_rev_parse; git_status; git_add; git_commit (strip line)])
    as (Ht & Hin & Hcalls).
  - intros w Hi Hc.
    to_the_prompt Hdirty.
    next steps_get_commit_message.
    rewrite Hmsg. cbn [truthy_opt the_str]. rewrite Hmsg. pass.
    next steps_confirm_commit_accepted. pass.
    next steps_commit_changes.
    apply Z.eqb_neq in Hrc. rewrite Hrc.
    bail. leave.
  - rewrite Ht, Hin, Hcalls. repeat split.
Qed.

(** X6. When the push fails ([git push] hands back a non-zero code) the
    process exits with code 1 with the commit already made: stage, commit
    and push have each been issued once, and the push went to [origin] with
    the branch the branch query printed. *)
Theorem push_failure_exits_1_after_commit
  (line : pystr) (junk : list pystr) (answer : pystr) (rest : list pystr)
  out1 err1 status err2 out3 err3 out4 err4 branch err5 rc out6 err6 :
  returned [] git_rev_parse = Some (0%Z, out1, err1) ->
  returned [git_rev_parse] git_status = Some (0%Z, status, err2) ->
  truthy status = true ->
  returned [git_rev_parse; git_status] git_add = Some (0%Z, out3, err3) ->
  truthy (strip line) = true ->
  Forall (fun l => confirm_turn l = Reprompt) junk ->
  confirm_turn answer = Accept ->
  returned [git_rev_parse; git_status; git_add] (git_commit (strip line))
    = Some (0%Z, out4, err4) ->
  returned [git_rev_parse; git_status; git_add; git_commit (strip line)]
    git_branch = Some (0%Z, branch, err5) ->
  returned [git_rev_parse; git_status; git_add; git_commit (strip line);
            git_branch] (git_push (strip branch)) = Some (rc, out6, err6) ->
  rc <> 0%Z ->
  let run := script (line :: junk ++ answer :: rest) in
  fst run = Exited 1 /\
  calls (snd run) = [git_rev_parse; git_status; git_add;
                     git_commit (strip line); git_branch;
                     [u "git"; u "push"; u "origin"; strip branch]] /\
  mutations (calls (snd run)) = [Stage; Commit; Push].
Proof.
  intros R1 R2 Hdirty R3 Hmsg Hjunk Hyes R4 R5 R6 Hrc run. subst run.
  destruct (script_of_steps (line :: junk ++ answer :: rest) (SysExit 1) rest
              [git_rev_parse; git_status; git_add; git_commit (strip line);
               git_branch; git_push (strip branch)]) as (Ht & _ & Hcalls).
  - intros w Hi Hc.
    to_the_push Hdirty Hmsg.
    next steps_push_to_remote.
    apply Z.eqb_neq in Hrc. rewrite Hrc.
    bail. leave.
  - rewrite Ht, Hcalls. repeat split.
Qed.

(** X7. When standard input ends before the operator has given a message
    and a recognised answer, the process dies of an uncaught [EOFError]
    with the changes staged and nothing committed: at the message prompt if
    there is no line at all, at the confirmation if no line after the
    message is a recognised answer. *)
Theorem end_of_input_leaves_changes_staged
  (lines : list pystr) out1 err1 status err2 out3 err3 :
  returned [] git_rev_parse = Some (0%Z, out1, err1) ->
  returned [git_rev_parse] git_status = Some (0%Z, status, err2) ->
  truthy status = true ->
  returned [git_rev_parse; git_status] git_add = Some (0%Z, out3, err3) ->
  match lines with
  | [] => True
  | line :: answers =>
      truthy (strip line) = true /\
      Forall (fun l => confirm_turn l = Reprompt) answers
  end ->
  fst (script lines) = Traceback EOFError /\
  stdin (snd (script lines)) = [] /\
  calls (snd (script lines)) = [git_rev_parse; git_status; git_add] /\
  mutations (calls (snd (script lines))) = [Stage].
Proof.
  intros R1 R2 Hdirty R3 Hlines.
  destruct (script_of_steps lines (Raise EOFError) []
              [git_rev_parse; git_status; git_add]) as (Ht & Hin & Hcalls).
  - intros w Hi Hc.
    to_the_prompt Hdirty.
    destruct lines as [|line answers].
    + apply steps_bind_raise. now apply steps_get_commit_message_eof.
    + destruct Hlines as (Hmsg & Hjunk).
      next steps_get_commit_message.
      rewrite Hmsg. cbn [truthy_opt the_str]. rewrite Hmsg. pass.
      apply steps_bind_raise.
      eapply steps_confirm_commit_starved; eassumption.
  - rewrite Ht, Hin, Hcalls. repeat split.
Qed.

(** ** The message prompt *)

Lemma truthy_strip (line : pystr) :
  truthy (strip line) = negb (forallb py_isspace line).
Proof.
  destruct (forallb py_isspace line) eqn:E.
  - now rewrite (strip_all_space line E).
  - destruct (strip line) eqn:S; [|reflexivity].
    apply strip_nil_iff in S. congruence.
Qed.

(** X8. [get_commit_message] reads exactly one line and runs no command.
    It returns [None] when the line is made of whitespace only; otherwise it
    returns the line trimmed, which is then not empty, has no whitespace at
    either end, and is not changed by trimming it again. *)
Theorem get_commit_message_trims (w : World) (line : pystr) (rest : list pystr) :
  stdin w = line :: rest ->
  stdin (snd (get_commit_message w)) = rest /\
  calls (snd (get_commit_message w)) = calls w /\
  (forallb py_isspace line = true -> fst (get_commit_message w) = Ret None) /\
  (forallb py_isspace line = false ->
   fst (get_commit_message w) = Ret (Some (strip line)) /\
   strip line <> [] /\
   strip (strip line) = strip line /\
   (forall c r, strip line = c :: r -> py_isspace c = false) /\
   (forall r c, strip line = r ++ [c] -> py_isspace c = false)).
Proof.
  intros Hi.
  pose proof (steps_get_commit_message w line rest (calls w) Hi eq_refl) as H.
  destruct (steps_to_fun _ _ _ _ _ _ _ _ H (steps_to_total get_commit_message w))
    as (Er & Ei & Ec).
  rewrite truthy_strip in Er.
  split; [now symmetry|]. split; [now symmetry|]. split.
  - intros Hb. rewrite Hb in Er. now symmetry.
  - intros Hb. rewrite Hb in Er. split; [now symmetry|].
    split; [|split; [apply strip_idempotent|split]].
    + intros E. apply strip_nil_iff in E. congruence.
    + apply strip_no_leading.
    + apply strip_no_trailing.
Qed.

(** ** The order of the commands, and what exit code 0 means *)

Lemma main_pipeline :
  always main []
    (fun r c =>
       exists m b k,
         (1 <= k)%nat /\
         c = firstn k [git_rev_parse; git_status; git_add; git_commit m;
                       git_branch; git_push b]).
Proof.
  unfold GitPush.main, check_git_repository, get_git_status, add_all_files,
    get_commit_message, commit_changes, GitPush.push_to_remote.
  walk.
  all: first
         [ exists [], [], 1%nat; split; [lia | reflexivity]
         | exists [], [], 2%nat; split; [lia | reflexivity]
         | exists [], [], 3%nat; split; [lia | reflexivity]
         | eexists _, [], 4%nat; split; [lia | reflexivity]
         | eexists _, [], 5%nat; split; [lia | reflexivity]
         | eexists _, _, 6%nat; split; [lia | reflexivity] ].
Qed.

(** X2. In every run the commands issued are an initial part, at least one
    long, of the fixed sequence rev-parse, status, add, commit, branch,
    push: the repository check always comes first, no command is issued
    twice, and none is issued before the one ahead of it in the sequence. *)
Theorem commands_follow_the_pipeline (lines : list pystr) :
  exists m b k,
    (1 <= k)%nat /\
    calls (snd (script lines))
    = firstn k [git_rev_parse; git_status; git_add;
                [u "git"; u "commit"; u "-m"; m];
                git_branch;
                [u "git"; u "push"; u "origin"; b]].
Proof.
  pose proof (main_pipeline (mkWorld lines [] []) eq_refl) as H.
  unfold GitPush.script.
  destruct (main (mkWorld lines [] [])) as [r w]. exact H.
Qed.

Lemma main_exit_0 :
  always main []
    (fun r c =>
       (r = SysExit 0 ->
        c = [git_rev_parse; git_status] \/
        c = [git_rev_parse; git_status; git_add]) /\
       (forall x, r = Ret x ->
        exists m b, c = [git_rev_parse; git_status; git_add; git_commit m;
                         git_branch; git_push b])).
Proof.
  unfold GitPush.main, check_git_repository, get_git_status, add_all_files,
    get_commit_message, commit_changes, GitPush.push_to_remote.
  walk.
  all: split; [intros E; try discriminate E; auto|].
  all: intros x E; try discriminate E.
  all: eexists _, _; reflexivity.
Qed.

(** X3. Exit code 0 has three meanings and no other: nothing to commit
    (only the repository check and the status query have run), the operator
    declined (the changes are staged, nothing else), or everything was done
    (stage, commit, branch query and push have all run).  In particular a
    run that has committed without pushing never exits with code 0. *)
Theorem exit_0_means (lines : list pystr) :
  fst (script lines) = Exited 0 ->
  calls (snd (script lines)) = [git_rev_parse; git_status] \/
  calls (snd (script lines)) = [git_rev_parse; git_status; git_add] \/
  exists m b,
    calls (snd (script lines))
    = [git_rev_parse; git_status; git_add; git_commit m; git_branch;
       git_push b].
Proof.
  pose proof (main_exit_0 (mkWorld lines [] []) eq_refl) as (H0 & Hret).
  unfold GitPush.script.
  destruct (main (mkWorld lines [] [])) as [[x|e|code] w];
    cbn [fst snd termination_of] in *; intros E.
  - right. right. exact (Hret x eq_refl).
  - discriminate E.
  - injection E as ->. destruct (H0 eq_refl) as [H|H]; auto.
Qed.

(** ** What holds of every run, with standard input and the answers of the
    commands in view *)

Lemma io_ret {A} (a : A) i0 c0
  (Q : Result A -> list pystr -> list (list pystr) -> Prop) :
  Q (Ret a) i0 c0 -> always_io (ret a) i0 c0 Q.
Proof. intros H w <- <-. exact H. Qed.

Lemma io_print (s : pystr) i0 c0
  (Q : Result unit -> list pystr -> list (list pystr) -> Prop) :
  Q (Ret tt) i0 c0 -> always_io (print s) i0 c0 Q.
Proof. intros H w <- <-. exact H. Qed.

Lemma io_sys_exit {A} (code : Z) i0 c0
  (Q : Result A -> list pystr -> list (list pystr) -> Prop) :
  Q (SysExit code) i0 c0 -> always_io (@sys_exit A code) i0 c0 Q.
Proof. intros H w <- <-. exact H. Qed.

Lemma io_bind {A B} (m : M A) (k : A -> M B) i0 c0
  (Q : Result B -> list pystr -> list (list pystr) -> Prop) :
  always_io m i0 c0
    (fun r i1 c1 =>
       match r with
       | Ret a => always_io (k a) i1 c1 Q
       | Raise e => Q (Raise e) i1 c1
       | SysExit code => Q (SysExit code) i1 c1
       end) ->
  always_io (bind m k) i0 c0 Q.
Proof.
  intros H w Hi Hc. specialize (H w Hi Hc). unfold bind.
  destruct (m w) as [[a|e|code] w1]; cbn [fst snd] in *; auto.
Qed.

Lemma io_input (prompt : pystr) i0 c0
  (Q : Result pystr -> list pystr -> list (list pystr) -> Prop) :
  (i0 = [] -> Q (Raise EOFError) [] c0) ->
  (forall line rest, i0 = line :: rest -> Q (Ret line) rest c0) ->
  always_io (input prompt) i0 c0 Q.
Proof.
  intros He H w <- <-. unfold input.
  destruct (stdin w) as [|line rest]; cbn [fst snd stdin calls];
    [now apply He | now apply H].
Qed.

Lemma io_run_command (command : list pystr) i0 c0
  (Q : Result (Z * pystr * pystr) -> list pystr -> list (list pystr) -> Prop) :
  (forall t, returned c0 command = Some t -> Q (Ret t) i0 (c0 ++ [command])) ->
  (forall x, subprocess_run c0 command = Raises (PyBaseException x) ->
             Q (Raise (PyBaseException x)) i0 (c0 ++ [command])) ->
  always_io (run_command command) i0 c0 Q.
Proof.
  intros H He w <- <-. rewrite run_command_eq. cbv zeta.
  unfold GitPush.returned in H.
  destruct (subprocess_run (calls w) command) as [rc out err|[t|t]];
    cbn [fst snd stdin calls]; [now apply H | now apply H | now apply He].
Qed.

Lemma confirm_loop_cases (lines : list pystr) (out : pystr) :
  (exists (b : bool) junk answer rest out',
      lines = junk ++ answer :: rest /\
      Forall (fun l => confirm_turn l = Reprompt) junk /\
      confirm_turn answer = (if b then Accept else Reject) /\
      confirm_loop lines out = (Ret b, (rest, out'))) \/
  (Forall (fun l => confirm_turn l = Reprompt) lines /\
   exists out', confirm_loop lines out = (Raise EOFError, ([], out'))).
Proof.
  revert out. induction lines as [|l lines IH]; intros out.
  - right. split; [constructor | eexists; reflexivity].
  - cbn [GitPush.confirm_loop]. destruct (confirm_turn l) eqn:El.
    + left. exists true, [], l, lines. eexists. now repeat split.
    + left. exists false, [], l, lines. eexists. now repeat split.
    + destruct (IH ((out ++ confirm_prompt) ++ u "請輸入 y 或 n" ++ nl))
        as [(b & junk & answer & rest & out' & -> & Hj & Ha & E)|(Hall & out' & E)].
      * left. exists b, (l :: junk), answer, rest, out'.
        repeat split; [now constructor | exact Ha | exact E].
      * right. split; [now constructor | now exists out'].
Qed.

Lemma io_confirm_commit (message : pystr) i0 c0
  (Q : Result bool -> list pystr -> list (list pystr) -> Prop) :
  (forall junk answer rest (b : bool),
      i0 = junk ++ answer :: rest ->
      Forall (fun l => confirm_turn l = Reprompt) junk ->
      confirm_turn answer = (if b then Accept else Reject) ->
      Q (Ret b) rest c0) ->
  (Forall (fun l => confirm_turn l = Reprompt) i0 -> Q (Raise EOFError) [] c0) ->
  always_io (confirm_commit message) i0 c0 Q.
Proof.
  intros H He w <- <-.
  destruct (confirm_commit_eq message w) as (out & ->).
  destruct (confirm_loop_cases (stdin w) out)
    as [(b & junk & answer & rest & out' & Hi & Hj & Ha & ->)|(Hall & out' & ->)];
    cbn [fst snd stdin calls].
  - now apply (H junk answer rest b).
  - now apply He.
Qed.

(** Every way through [main], keeping what each call to the outside is known
    to have answered. *)
Ltac walk_io :=
  repeat
    (cbn beta iota delta [when negb truthy_opt the_str];
     lazymatch goal with
     | |- always_io (bind _ _) _ _ _ => apply io_bind
     | |- always_io (print _) _ _ _ => apply io_print
     | |- always_io (ret _) _ _ _ => apply io_ret
     | |- always_io (sys_exit _) _ _ _ => apply io_sys_exit
     | |- always_io (GitPush.run_command _ _) _ _ _ =>
         apply io_run_command; [intros [[? ?] ?] ? | intros ? ?]
     | |- always_io (input _) _ _ _ =>
         apply io_input; [intros -> | intros ? ? ->]
     | |- always_io (GitPush.confirm_commit _ _) _ _ _ =>
         apply io_confirm_commit; [intros ? ? ? [|] -> ? ? | intros ?]
     | |- context [(?rc =? 0)%Z] => destruct (rc =? 0)%Z eqn:?
     | |- context [truthy ?s] => destruct (truthy s) eqn:?
     end);
  repeat match goal with
         | H : (_ =? 0)%Z = true |- _ => apply Z.eqb_eq in H; subst
         end.

Ltac unfold_main :=
  unfold GitPush.main, check_git_repository, get_git_status, add_all_files,
    get_commit_message, commit_changes, GitPush.push_to_remote.

Lemma script_always_io (lines : list pystr)
  (Q : Result unit -> list pystr -> list (list pystr) -> Prop) :
  always_io main lines [] Q ->
  exists r, fst (script lines) = termination_of r /\
            Q r (stdin (snd (script lines))) (calls (snd (script lines))).
Proof.
  intros H. specialize (H (mkWorld lines [] []) eq_refl eq_refl).
  unfold GitPush.script. destruct (main (mkWorld lines [] [])) as [r w].
  now exists r.
Qed.





Lemma main_commit (lines : list pystr) :
  always_io main lines []
    (fun r i c =>
       forall command, In command c -> mutation_of command = Some Commit ->
         exists line junk answer rest,
           lines = line :: junk ++ answer :: rest /\
           command = [u "git"; u "commit"; u "-m"; strip line] /\
           strip line <> [] /\
           Forall (fun l => confirm_turn l = Reprompt) junk /\
           confirm_turn answer = Accept).
Proof.
  unfold_main. walk_io.
  all: intros command Hin Hm; cbn [app In] in Hin.
  all: repeat (destruct Hin as [<-|Hin];
               [try (vm_compute in Hm; discriminate Hm)|]);
       try (destruct Hin).
  all: eexists _, _, _, _; split; [reflexivity|]; split; [reflexivity|].
  all: split; [|split; assumption].
  all: intros E;
       match goal with
       | H : truthy (strip _) = true |- _ => rewrite E in H; discriminate H
       end.
Qed.

(** X9. A commit is never made unasked or unnamed: in every run, a commit
    command that was issued is [git commit -m] with the first line of
    standard input, trimmed, as its message; that message is not empty; and
    the lines after it held an affirmative answer, preceded only by answers
    that were not understood. *)
Theorem commit_only_confirmed_and_named (lines command : list pystr) :
  In command (calls (snd (script lines))) ->
  mutation_of command = Some Commit ->
  exists line junk answer rest,
    lines = line :: junk ++ answer :: rest /\
    command = [u "git"; u "commit"; u "-m"; strip line] /\
    strip line <> [] /\
    Forall (fun l => confirm_turn l = Reprompt) junk /\
    confirm_turn answer = Accept.
Proof.
  destruct (script_always_io lines _ (main_commit lines)) as (r & _ & H).
  apply H.
Qed.

(** ** More on the push step *)

Lemma push_to_remote_true (w : World) :
  always_io push_to_remote (stdin w) (calls w)
    (fun r i c =>
       r = Ret true ->
       exists branch err out err',
         returned (calls w) git_branch = Some (0%Z, branch, err) /\
         returned (calls w ++ [git_branch]) (git_push (strip branch))
         = Some (0%Z, out, err')).
Proof.
  unfold GitPush.push_to_remote. walk_io.
  all: intros E; try discriminate E.
  eexists _, _, _, _. split; eassumption.
Qed.

(** X12. The push step reports success exactly when both of its commands
    succeeded: it returns [True] if and only if the branch query handed back
    code 0 and [git push origin <branch>], run next with the branch name the
    query printed, handed back code 0 as well. *)
Theorem push_to_remote_true_iff (w : World) :
  fst (push_to_remote w) = Ret true <->
  exists branch err out err',
    returned (calls w) git_branch = Some (0%Z, branch, err) /\
    returned (calls w ++ [git_branch])
      [u "git"; u "push"; u "origin"; strip branch] = Some (0%Z, out, err').
Proof.
  split.
  - exact (push_to_remote_true w w eq_refl eq_refl).
  - intros (branch & err & out & err' & R & R').
    pose proof (steps_push_to_remote w _ _ branch err 0%Z out err'
                  eq_refl eq_refl R R') as H.
    destruct (steps_to_fun _ _ _ _ _ _ _ _ H (steps_to_total push_to_remote w))
      as (E & _ & _).
    now symmetry.
Qed.

(** X13. The branch name is not checked: when the branch query succeeds but
    prints nothing, or blanks only (as on a detached HEAD), the push is
    still issued, with the empty string as the branch. *)
Theorem blank_branch_is_pushed_as_is (w : World) (branch err : pystr) :
  returned (calls w) git_branch = Some (0%Z, branch, err) ->
  forallb py_isspace branch = true ->
  calls (snd (push_to_remote w))
  = calls w ++ [git_branch; [u "git"; u "push"; u "origin"; []]].
Proof.
  intros R Hblank.
  destruct (push_to_remote_issues_push w branch err R) as (r & H).
  destruct (steps_to_fun _ _ _ _ _ _ _ _ H (steps_to_total push_to_remote w))
    as (_ & _ & E).
  rewrite <- E, (strip_all_space branch Hblank). reflexivity.
Qed.

End Steps.

(** * The properties on concrete runs *)

(** The operator types the message, an answer that is not understood, then
    [YES]: the three mutating commands run in order and the exit code is 0. *)
Lemma round_trip_witness :
  fst (script happy_path caseless_lower [u "fix bug"; u "maybe"; u "YES"])
  = Exited 0 /\
  calls (snd (script happy_path caseless_lower
                [u "fix bug"; u "maybe"; u "YES"]))
  = [git_rev_parse; git_status; git_add; git_commit (u "fix bug"); git_branch;
     [u "git"; u "push"; u "origin"; u "main"]] /\
  mutations (calls (snd (script happy_path caseless_lower
                           [u "fix bug"; u "maybe"; u "YES"])))
  = [Stage; Commit; Push].
Proof.
  apply (round_trip happy_path caseless_lower
           (u "fix bug") [u "maybe"] (u "YES") []
           [] [] [] [] [] [] [] (u "main" ++ nl) [] [] []);
    try reflexivity.
  constructor; [reflexivity | constructor].
Defined.

(** C1 as stated does not hold: with the same status, message and answer, a
    commit that is refused ends the run with code 1 and no push. *)
Lemma round_trip_unconditional_fails : ~ round_trip_unconditional.
Proof.
  intros H.
  specialize (H commit_refused caseless_lower (u "fix bug") [] (u "y") []
                [] [] [] [] [] eq_refl eq_refl eq_refl eq_refl
                (Forall_nil _) eq_refl).
  cbv zeta in H. destruct H as [H _].
  vm_compute in H. discriminate H.
Qed.

Lemma not_a_repository_exits_1_witness :
  fst (script not_a_repository caseless_lower [u "fix bug"; u "y"]) = Exited 1 /\
  calls (snd (script not_a_repository caseless_lower [u "fix bug"; u "y"]))
  = [git_rev_parse] /\
  mutations (calls (snd (script not_a_repository caseless_lower
                           [u "fix bug"; u "y"]))) = [].
Proof.
  apply (not_a_repository_exits_1 not_a_repository caseless_lower
           [u "fix bug"; u "y"] 128%Z [] (u "fatal: not a git repository")).
  - reflexivity.
  - lia.
Defined.

Lemma clean_status_exits_0_witness :
  fst (script clean_tree caseless_lower [u "fix bug"; u "y"]) = Exited 0 /\
  calls (snd (script clean_tree caseless_lower [u "fix bug"; u "y"]))
  = [git_rev_parse; git_status] /\
  mutations (calls (snd (script clean_tree caseless_lower
                           [u "fix bug"; u "y"]))) = [].
Proof.
  apply (clean_status_exits_0 clean_tree caseless_lower
           [u "fix bug"; u "y"] [] [] []); reflexivity.
Defined.

(** C4 fails on the code. Run from inside the [.git] directory, the status
    query exits with 128, and the process reports that there is nothing to
    commit and exits with code 0, where the failure of every other command
    ends it with code 1. *)
Theorem unreadable_status_exits_0 :
  returned no_work_tree [git_rev_parse] git_status
  = Some (128%Z, [], u "fatal: this operation must be run in a work tree") /\
  fst (script no_work_tree caseless_lower []) = Exited 0 /\
  calls (snd (script no_work_tree caseless_lower []))
  = [git_rev_parse; git_status].
Proof.
  split; [reflexivity|].
  apply (failed_status_exits_0 no_work_tree caseless_lower [] [] [] 128%Z []
           (u "fatal: this operation must be run in a work tree"));
    [reflexivity | reflexivity | lia].
Qed.

(** A tab, a space and an ideographic space make a blank message. *)
Lemma blank_message_exits_1_after_staging_witness :
  fst (script happy_path caseless_lower [[9; 32; 12288]%N; u "y"]) = Exited 1 /\
  calls (snd (script happy_path caseless_lower [[9; 32; 12288]%N; u "y"]))
  = [git_rev_parse; git_status; git_add] /\
  mutations (calls (snd (script happy_path caseless_lower
                           [[9; 32; 12288]%N; u "y"]))) = [Stage].
Proof.
  apply (blank_message_exits_1_after_staging happy_path caseless_lower
           [9; 32; 12288]%N [u "y"] [] [] (u "M file.txt") [] [] []);
    reflexivity.
Defined.

Lemma declined_confirmation_exits_0_witness :
  fst (script happy_path caseless_lower [u "fix bug"; u "what?"; u "n"])
  = Exited 0 /\
  calls (snd (script happy_path caseless_lower
                [u "fix bug"; u "what?"; u "n"]))
  = [git_rev_parse; git_status; git_add] /\
  mutations (calls (snd (script happy_path caseless_lower
                           [u "fix bug"; u "what?"; u "n"]))) = [Stage].
Proof.
  apply (declined_confirmation_exits_0 happy_path caseless_lower
           (u "fix bug") [u "what?"] (u "n") []
           [] [] (u "M file.txt") [] [] []);
    try reflexivity.
  constructor; [reflexivity | constructor].
Defined.

Lemma branch_failure_exits_1_without_push_witness :
  fst (script branch_unknown caseless_lower [u "fix bug"; u "y"]) = Exited 1 /\
  calls (snd (script branch_unknown caseless_lower [u "fix bug"; u "y"]))
  = [git_rev_parse; git_status; git_add; git_commit (u "fix bug"); git_branch] /\
  mutations (calls (snd (script branch_unknown caseless_lower
                           [u "fix bug"; u "y"]))) = [Stage; Commit].
Proof.
  apply (branch_failure_exits_1_without_push branch_unknown caseless_lower
           (u "fix bug") [] (u "y") []
           [] [] (u "M file.txt") [] [] [] [] [] 128%Z []
           (u "fatal: bad revision"));
    try reflexivity.
  - constructor.
  - lia.
Defined.

(** The push step on its own: the branch [main] is pushed to [origin]; a
    branch that cannot be told, and a push that is refused, both make the
    step return [False]. *)
Lemma push_to_remote_targets_origin_and_branch_witness :
  calls (snd (push_to_remote happy_path (mkWorld [] [] [])))
  = [git_branch; [u "git"; u "push"; u "origin"; u "main"]] /\
  fst (push_to_remote branch_unknown (mkWorld [] [] [])) = Ret false /\
  fst (push_to_remote push_refused (mkWorld [] [] [])) = Ret false.
Proof.
  split; [|split].
  - exact (proj1 (push_to_remote_targets_origin_and_branch happy_path
                    (mkWorld [] [] [])) (u "main" ++ nl) [] eq_refl).
  - refine (proj1 (proj1 (proj2 (push_to_remote_targets_origin_and_branch
                                   branch_unknown (mkWorld [] [] [])))
                     128%Z [] (u "fatal: bad revision") eq_refl _)).
    lia.
  - refine (proj2 (proj2 (push_to_remote_targets_origin_and_branch
                            push_refused (mkWorld [] [] [])))
              (u "main" ++ nl) [] 1%Z [] (u "rejected") eq_refl eq_refl _).
    lia.
Defined.

(** An answer in capitals and one in Chinese with blanks around it. *)
Lemma confirm_commit_three_way_witness :
  confirm_turn caseless_lower (u " Yes ") = Accept /\
  fst (confirm_commit caseless_lower (u "fix bug")
         (mkWorld [u "maybe"; u " 取消 "; u "y"] [] [])) = Ret false /\
  stdin (snd (confirm_commit caseless_lower (u "fix bug")
                (mkWorld [u "maybe"; u " 取消 "; u "y"] [] []))) = [u "y"].
Proof.
  pose proof (confirm_commit_three_way caseless_lower)
    as (_ & _ & _ & _ & _ & Hloop & _ & Hascii & _).
  split.
  - apply (proj1 (Hascii (u " Yes ") eq_refl)). right. reflexivity.
  - destruct (Hloop (u "fix bug") (mkWorld [u "maybe"; u " 取消 "; u "y"] [] [])
                [u "maybe"] (u " 取消 ") [u "y"] false eq_refl) as (E1 & E2 & _).
    + constructor; [reflexivity | constructor].
    + reflexivity.
    + split; [exact E1 | exact E2].
Defined.

(** C10 as stated does not hold: an interrupt while the command runs is not
    an [Exception], and [run_command] lets it through. *)
Lemma run_command_lets_interrupt_through : ~ run_command_never_raises.
Proof.
  intros H.
  destruct (H interrupted git_rev_parse (mkWorld [] [] []))
    as ((rc & out & err & E) & _).
  vm_compute in E. discriminate E.
Qed.

(** Without a [git] executable the caller is handed code 1 and the text of
    the [FileNotFoundError]. *)
Lemma run_command_catches_Exception_witness :
  fst (run_command git_missing git_rev_parse (mkWorld [] [] []))
  = Ret (1%Z, [], u "[Errno 2] No such file or directory: 'git'").
Proof.
  exact (proj1 (run_command_catches_Exception git_missing git_rev_parse
                  (mkWorld [] [] []))).
Defined.

(** * The further properties on concrete runs *)

Lemma stage_failure_exits_1_before_prompt_witness :
  fst (script stage_refused caseless_lower [u "fix bug"; u "y"]) = Exited 1 /\
  stdin (snd (script stage_refused caseless_lower [u "fix bug"; u "y"]))
  = [u "fix bug"; u "y"] /\
  calls (snd (script stage_refused caseless_lower [u "fix bug"; u "y"]))
  = [git_rev_parse; git_status; git_add] /\
  mutations (calls (snd (script stage_refused caseless_lower
                           [u "fix bug"; u "y"]))) = [Stage].
Proof.
  apply (stage_failure_exits_1_before_prompt stage_refused caseless_lower
           [u "fix bug"; u "y"] [] [] (u "M file.txt") [] 128%Z []
           (u "fatal: Unable to create index.lock"));
    try reflexivity.
  lia.
Defined.

Lemma commit_failure_exits_1_without_push_witness :
  fst (script commit_refused caseless_lower [u "fix bug"; u "y"; u "more"])
  = Exited 1 /\
  stdin (snd (script commit_refused caseless_lower
                [u "fix bug"; u "y"; u "more"])) = [u "more"] /\
  calls (snd (script commit_refused caseless_lower
                [u "fix bug"; u "y"; u "more"]))
  = [git_rev_parse; git_status; git_add; git_commit (u "fix bug")] /\
  mutations (calls (snd (script commit_refused caseless_lower
                           [u "fix bug"; u "y"; u "more"])))
  = [Stage; Commit].
Proof.
  apply (commit_failure_exits_1_without_push commit_refused caseless_lower
           (u "fix bug") [] (u "y") [u "more"]
           [] [] (u "M file.txt") [] [] [] 1%Z []
           (u "pre-commit hook failed"));
    try reflexivity.
  - constructor.
  - lia.
Defined.

Lemma push_failure_exits_1_after_commit_witness :
  fst (script push_refused caseless_lower [u "fix bug"; u "y"]) = Exited 1 /\
  calls (snd (script push_refused caseless_lower [u "fix bug"; u "y"]))
  = [git_rev_parse; git_status; git_add; git_commit (u "fix bug"); git_branch;
     [u "git"; u "push"; u "origin"; u "main"]] /\
  mutations (calls (snd (script push_refused caseless_lower
                           [u "fix bug"; u "y"]))) = [Stage; Commit; Push].
Proof.
  apply (push_failure_exits_1_after_commit push_refused caseless_lower
           (u "fix bug") [] (u "y") []
           [] [] (u "M file.txt") [] [] [] [] [] (u "main" ++ nl) [] 1%Z []
           (u "rejected"));
    try reflexivity.
  - constructor.
  - lia.
Defined.

(** The message is given, the answer is not understood, and the input ends. *)
Lemma end_of_input_leaves_changes_staged_witness :
  fst (script happy_path caseless_lower [u "fix bug"; u "maybe"])
  = Traceback EOFError /\
  stdin (snd (script happy_path caseless_lower [u "fix bug"; u "maybe"])) = [] /\
  calls (snd (script happy_path caseless_lower [u "fix bug"; u "maybe"]))
  = [git_rev_parse; git_status; git_add] /\
  mutations (calls (snd (script happy_path caseless_lower
                           [u "fix bug"; u "maybe"]))) = [Stage].
Proof.
  apply (end_of_input_leaves_changes_staged happy_path caseless_lower
           [u "fix bug"; u "maybe"] [] [] (u "M file.txt") [] [] []);
    try reflexivity.
  split; [reflexivity | constructor; [reflexivity | constructor]].
Defined.

Lemma get_commit_message_trims_witness :
  fst (get_commit_message (mkWorld [u "  fix bug "; u "y"] [] []))
  = Ret (Some (u "fix bug")) /\
  stdin (snd (get_commit_message (mkWorld [u "  fix bug "; u "y"] [] [])))
  = [u "y"].
Proof.
  destruct (get_commit_message_trims (mkWorld [u "  fix bug "; u "y"] [] [])
              (u "  fix bug ") [u "y"] eq_refl) as (Hi & _ & _ & H).
  destruct (H eq_refl) as (E & _).
  split; [exact E | exact Hi].
Defined.

(** The operator declines: exit code 0 with the changes staged. *)
Lemma exit_0_means_witness :
  calls (snd (script happy_path caseless_lower [u "fix bug"; u "n"]))
  = [git_rev_parse; git_status] \/
  calls (snd (script happy_path caseless_lower [u "fix bug"; u "n"]))
  = [git_rev_parse; git_status; git_add] \/
  exists m b,
    calls (snd (script happy_path caseless_lower [u "fix bug"; u "n"]))
    = [git_rev_parse; git_status; git_add; git_commit m; git_branch;
       git_push b].
Proof.
  apply (exit_0_means happy_path caseless_lower [u "fix bug"; u "n"]).
  reflexivity.
Defined.

Lemma commit_only_confirmed_and_named_witness :
  exists line junk answer rest,
    [u " fix bug"; u "maybe"; u "YES"] = line :: junk ++ answer :: rest /\
    git_commit (u "fix bug") = [u "git"; u "commit"; u "-m"; strip line] /\
    strip line <> [] /\
    Forall (fun l => confirm_turn caseless_lower l = Reprompt) junk /\
    confirm_turn caseless_lower answer = Accept.
Proof.
  refine (commit_only_confirmed_and_named happy_path caseless_lower
            [u " fix bug"; u "maybe"; u "YES"] (git_commit (u "fix bug")) _ _).
  - vm_compute. right. right. right. left. reflexivity.
  - reflexivity.
Defined.


Lemma blank_branch_is_pushed_as_is_witness :
  calls (snd (push_to_remote detached_head (mkWorld [] [] [])))
  = [git_branch; [u "git"; u "push"; u "origin"; []]].
Proof.
  apply (blank_branch_is_pushed_as_is detached_head (mkWorld [] [] []) nl []);
    reflexivity.
Defined.
